(** * libmachine/host: the per-machine lifecycle orchestrator

    A shallow embedding of [libmachine/host/host.go] and a verification of
    its guard / action / confirmation discipline.

    The file is organised as the Go package is:
    - [regexp]: the fragment of Go's regular expressions that
      [validHostNameChars] uses, with a derivative matcher;
    - [state]: the lifecycle states;
    - the [Host] and [Options] structs;
    - the calls a host makes to its collaborators (driver, provisioner,
      SSH factory, logger, clock) and a monad in which every such call is
      answered by a backend and recorded;
    - [MachineInState] and [WaitFor], the two helpers from [drivers] and
      [mcnutils];
    - the methods of [*Host];
    - the theorems. *)

From Stdlib Require Import List String Ascii Bool Arith ZArith Lia.
Import ListNotations.
Local Open Scope string_scope.

Set Implicit Arguments.

(* ------------------------------------------------------------------ *)
(** ** Regular expressions *)

Module regexp.

(** The operators of [regexp/syntax] that occur in [validHostNameChars].
    A character class is a list of inclusive ranges of byte codes. *)
Inductive Regexp : Type :=
| NoMatch
| EmptyMatch
| CharClass (ranges : list (ascii * ascii))
| Concat (r1 r2 : Regexp)
| Alternate (r1 r2 : Regexp)
| Star (r : Regexp).

Definition in_range (c : ascii) (r : ascii * ascii) : bool :=
  ((nat_of_ascii (fst r) <=? nat_of_ascii c)%nat &&
   (nat_of_ascii c <=? nat_of_ascii (snd r))%nat)%bool.

Definition in_class (ranges : list (ascii * ascii)) (c : ascii) : bool :=
  existsb (in_range c) ranges.

Fixpoint nullable (r : Regexp) : bool :=
  match r with
  | NoMatch => false
  | EmptyMatch => true
  | CharClass _ => false
  | Concat r1 r2 => nullable r1 && nullable r2
  | Alternate r1 r2 => nullable r1 || nullable r2
  | Star _ => true
  end.

Fixpoint deriv (r : Regexp) (c : ascii) : Regexp :=
  match r with
  | NoMatch => NoMatch
  | EmptyMatch => NoMatch
  | CharClass rs => if in_class rs c then EmptyMatch else NoMatch
  | Concat r1 r2 =>
      if nullable r1
      then Alternate (Concat (deriv r1 c) r2) (deriv r2 c)
      else Concat (deriv r1 c) r2
  | Alternate r1 r2 => Alternate (deriv r1 c) (deriv r2 c)
  | Star r1 => Concat (deriv r1 c) (Star r1)
  end.

(** Whole-text match: what [MatchString] decides for a pattern that is
    anchored by [^] on the left and [$] on the right (Go's [$] without the
    [m] flag is the end of the text, not the end of a line). *)
Fixpoint matches (r : Regexp) (s : string) : bool :=
  match s with
  | EmptyString => nullable r
  | String c s' => matches (deriv r c) s'
  end.

(** The language of a regular expression, as a relation. *)
Inductive Lang : Regexp -> string -> Prop :=
| LEmpty : Lang EmptyMatch ""
| LClass rs c : in_class rs c = true -> Lang (CharClass rs) (String c "")
| LConcat r1 r2 s1 s2 : Lang r1 s1 -> Lang r2 s2 -> Lang (Concat r1 r2) (s1 ++ s2)
| LAltL r1 r2 s : Lang r1 s -> Lang (Alternate r1 r2) s
| LAltR r1 r2 s : Lang r2 s -> Lang (Alternate r1 r2) s
| LStar0 r : Lang (Star r) ""
| LStarS r c s1 s2 :
    Lang r (String c s1) -> Lang (Star r) s2 -> Lang (Star r) (String c s1 ++ s2).

End regexp.

(* ------------------------------------------------------------------ *)
(** ** host.go, the validation of machine names *)

Import regexp.

Definition alnum_ranges : list (ascii * ascii) :=
  [("a"%char, "z"%char); ("A"%char, "Z"%char); ("0"%char, "9"%char)].

(** [validHostNameChars = `^[a-zA-Z0-9][a-zA-Z0-9\-\.]*$`]: the body between
    the two anchors. *)
Definition validHostNameChars : Regexp :=
  Concat (CharClass alnum_ranges)
         (Star (CharClass (alnum_ranges ++ [("-"%char, "-"%char); ("."%char, "."%char)])%list)).

Definition validHostNamePattern : string -> bool := matches validHostNameChars.

Definition ValidateHostName (name : string) : bool := validHostNamePattern name.

(** The specification's wording of a valid machine name. *)
Definition alphanumeric (c : ascii) : Prop :=
  let n := nat_of_ascii c in
  (97 <= n <= 122) \/ (65 <= n <= 90) \/ (48 <= n <= 57).

Definition name_char (c : ascii) : Prop :=
  alphanumeric c \/ c = "-"%char \/ c = "."%char.

Definition hostname_like (s : string) : Prop :=
  exists c rest,
    s = String c rest /\ alphanumeric c /\ Forall name_char (list_ascii_of_string rest).

(* ------------------------------------------------------------------ *)
(** ** Lifecycle states *)

Module state.

(** Modelled from the spec: the enumeration [state.State] of package
    [libmachine/state], with the members the data model lists. *)
Inductive State : Type :=
| None | Running | Paused | Saved | Stopped | Starting | Error | Timeout.

Definition State_eq_dec (a b : State) : {a = b} + {a <> b}.
Proof. decide equality. Defined.

(** Go's [==] on two states. *)
Definition eqb (a b : State) : bool :=
  if State_eq_dec a b then true else false.

(** Modelled from the spec: [State.String], the name of the member.  The
    host only ever renders [Running] and [Stopped]. *)
Definition String (s : State) : string :=
  match s with
  | None => "None"
  | Running => "Running"
  | Paused => "Paused"
  | Saved => "Saved"
  | Stopped => "Stopped"
  | Starting => "Starting"
  | Error => "Error"
  | Timeout => "Timeout"
  end.

End state.

(* ------------------------------------------------------------------ *)
(** ** strings.ToLower, on ASCII text *)

Module strings.

Definition lower (c : ascii) : ascii :=
  let n := nat_of_ascii c in
  if ((65 <=? n)%nat && (n <=? 90)%nat)%bool then ascii_of_nat (n + 32) else c.

Fixpoint ToLower (s : string) : string :=
  match s with
  | EmptyString => EmptyString
  | String c s' => String (lower c) (ToLower s')
  end.

End strings.

(* ------------------------------------------------------------------ *)
(** ** Errors and the imported packages *)

(** A Go [error] is represented by the text its [Error()] method returns;
    the [nil] error is [None] of [option error]. *)
Definition error : Type := string.

(** [ssh.Auth], with the one field the host fills in. *)
Record ssh_Auth : Type := { Keys : list string }.

(** What host.go imports and never looks inside: the driver and provisioner
    interfaces, the option structs of the other packages, two enumeration
    constants, the [%q] verb of [fmt], and the two constants of the poller
    (the specification fixes neither the number of attempts nor the text of
    the timeout error). *)
Class Imports : Type := {
  drivers_Driver : Type;
  provision_Provisioner : Type;
  pkgaction_PackageAction : Type;
  pkgaction_Upgrade : pkgaction_PackageAction;
  serviceaction_ServiceAction : Type;
  serviceaction_Restart : serviceaction_ServiceAction;
  swarm_Options : Type;
  swarm_Options_zero : swarm_Options;
  auth_Options : Type;
  engine_Options : Type;
  ssh_Client : Type;
  ssh_ExternalClient_zero : ssh_Client;
  strconv_Quote : string -> string;
  mcnutils_attempts : nat;
  mcnutils_errTimeout : error
}.

Section Host.

Context {I : Imports}.

(** ** The structs of host.go.  A Go pointer is an [option]: [None] is the
    nil pointer. *)
Record Options : Type := {
  Options_Driver : string;
  Memory : Z;
  Disk : Z;
  EngineOptions : option engine_Options;
  SwarmOptions : option swarm_Options;
  AuthOptions : option auth_Options
}.

Record Host : Type := {
  ConfigVersion : Z;
  Driver : drivers_Driver;
  DriverName : string;
  HostOptions : option Options;
  Name : string;
  RawDriver : list Byte.byte
}.

(** ** Calls to collaborators *)

(** The three mechanical actions of a driver: its methods [Start], [Stop]
    and [Kill], all of type [func() error]. *)
Inductive Mechanical : Type :=
| Driver_Start
| Driver_Stop
| Driver_Kill.

Inductive Call : Type :=
| Driver_GetState (d : drivers_Driver)
| Driver_do (a : Mechanical) (d : drivers_Driver)
| Driver_GetSSHHostname (d : drivers_Driver)
| Driver_GetSSHPort (d : drivers_Driver)
| Driver_GetSSHKeyPath (d : drivers_Driver)
| Driver_GetSSHUsername (d : drivers_Driver)
| provision_DetectProvisioner (d : drivers_Driver)
| Provisioner_Package (p : provision_Provisioner) (name : string)
                      (a : pkgaction_PackageAction)
| Provisioner_Service (p : provision_Provisioner) (name : string)
                      (a : serviceaction_ServiceAction)
| Provisioner_Provision (p : provision_Provisioner) (sw : swarm_Options)
                        (au : auth_Options) (en : engine_Options)
| ssh_NewClient (user addr : string) (port : Z) (auth : ssh_Auth)
| log_Info (msg : string)
| time_Sleep.

(** The Go result type of each call; [(v, err)] pairs stay pairs. *)
Definition Resp (c : Call) : Type :=
  match c with
  | Driver_GetState _ => (state.State * option error)%type
  | Driver_do _ _ => option error
  | Driver_GetSSHHostname _ => (string * option error)%type
  | Driver_GetSSHPort _ => (Z * option error)%type
  | Driver_GetSSHKeyPath _ | Driver_GetSSHUsername _ => string
  | provision_DetectProvisioner _ => (provision_Provisioner * option error)%type
  | Provisioner_Package _ _ _ | Provisioner_Service _ _ _
  | Provisioner_Provision _ _ _ _ => option error
  | ssh_NewClient _ _ _ _ => (ssh_Client * option error)%type
  | log_Info _ | time_Sleep => unit
  end.

(** ** The world outside the host *)

Variable W : Type.

(** A backend answers every call from the current state of the world and
    moves the world on.  It never sees the [Host] struct. *)
Definition Backend : Type := forall c : Call, W -> Resp c * W.

Variable backend : Backend.

(** ** The monad of host operations *)

Inductive Res (A : Type) : Type :=
| Val (a : A)
| Panic.
Arguments Panic {A}.

Record Run (A : Type) : Type := mkRun {
  result : Res A;
  host_after : Host;
  world_after : W;
  trace : list Call
}.

(** A computation runs on the struct behind the receiver [h *Host] and on
    the world; it yields a value or panics, and reports the calls it made,
    in order. *)
Definition M (A : Type) : Type := Host -> W -> Run A.

Definition ret {A} (a : A) : M A :=
  fun h w => mkRun (Val a) h w [].

(** The run [r], after the calls [t] were made. *)
Definition prepend {A} (t : list Call) (r : Run A) : Run A :=
  mkRun (result r) (host_after r) (world_after r) (t ++ trace r)%list.

Definition bind {A B} (m : M A) (k : A -> M B) : M B :=
  fun h w =>
    let r := m h w in
    match result r with
    | Val a => prepend (trace r) (k a (host_after r) (world_after r))
    | Panic => mkRun Panic (host_after r) (world_after r) (trace r)
    end.

(** Reading a field through the receiver. *)
Definition field {A} (f : Host -> A) : M A :=
  fun h w => mkRun (Val (f h)) h w [].

(** Assigning through the receiver, [*h = h'].  No method below does it. *)
Definition assign (h' : Host) : M unit :=
  fun _ w => mkRun (Val tt) h' w [].

(** A call: the backend's answer is the value, the world moves on, and the
    call is recorded. *)
Definition call (c : Call) : M (Resp c) :=
  fun h w => mkRun (Val (fst (backend c w))) h (snd (backend c w)) [c].

(** Dereferencing a pointer; nil panics. *)
Definition deref {A} (p : option A) : M A :=
  match p with
  | Some a => ret a
  | None => fun h w => mkRun Panic h w []
  end.

End Host.

Arguments Panic {A}.
Arguments prepend {I W A} t r.
Arguments ret {I W A} a.
Arguments field {I W A} f.
Arguments assign {I W} h'.
Arguments deref {I W A} p.

Declare Scope host_scope.
Delimit Scope host_scope with host.
Notation "x <- m ;; k" := (bind m (fun x => k))
  (at level 61, m at next level, right associativity) : host_scope.
Notation "m ;;; k" := (bind m (fun _ => k))
  (at level 61, right associativity) : host_scope.

Section Operations.

Context {I : Imports}.
Variable W : Type.
Variable backend : Backend W.

Local Open Scope host_scope.
Local Abbreviation call := (call backend).

(** ** drivers.MachineInState and mcnutils.WaitFor *)

(** Modelled from the spec: [drivers.MachineInState], the predicate handed
    to the guard and to the poller.  It only queries the backend; a failed
    query counts as "not in that state". *)
Definition MachineInState (d : drivers_Driver) (desiredState : state.State)
  : M W bool :=
  r <- call (Driver_GetState d) ;;
  match snd r with
  | Some _ => ret false
  | None => ret (state.eqb (fst r) desiredState)
  end.

(** Modelled from the spec: the confirmation poller of [mcnutils].  The
    predicate is evaluated until it holds, sleeping between evaluations;
    when the budget is used up the poller fails with the timeout error. *)
Fixpoint WaitForSpecific (f : M W bool) (maxAttempts : nat)
  : M W (option error) :=
  match maxAttempts with
  | O => ret (Some mcnutils_errTimeout)
  | S n =>
      ok <- f ;;
      if ok : bool then ret None
      else call time_Sleep ;;; WaitForSpecific f n
  end.

Definition WaitFor (f : M W bool) : M W (option error) :=
  WaitForSpecific f mcnutils_attempts.

(** ** host.go *)

Definition errMachineMustBeRunningForUpgrade : error :=
  "Error: machine must be running to upgrade.".

(** [fmt.Errorf("Machine %q is already %s.", name, strings.ToLower(s.String()))] *)
Definition errAlreadyInState (name : string) (s : state.State) : error :=
  "Machine " ++ strconv_Quote name ++ " is already "
    ++ strings.ToLower (state.String s) ++ ".".

Definition CreateSSHClient : M W (ssh_Client * option error) :=
  d <- field Driver ;;
  r <- call (Driver_GetSSHHostname d) ;;
  let (addr, err) := r in
  match err with
  | Some e => ret (ssh_ExternalClient_zero, Some e)
  | None =>
      d <- field Driver ;;
      r <- call (Driver_GetSSHPort d) ;;
      let (port, err) := r in
      match err with
      | Some e => ret (ssh_ExternalClient_zero, Some e)
      | None =>
          d <- field Driver ;;
          key <- call (Driver_GetSSHKeyPath d) ;;
          let auth := {| Keys := [key] |} in
          d <- field Driver ;;
          user <- call (Driver_GetSSHUsername d) ;;
          call (ssh_NewClient user addr port auth)
      end
  end.

Definition runActionForState (action : M W (option error))
                             (desiredState : state.State)
  : M W (option error) :=
  d <- field Driver ;;
  already <- MachineInState d desiredState ;;
  if already : bool then
    name <- field Name ;;
    ret (Some (errAlreadyInState name desiredState))
  else
    err <- action ;;
    match err with
    | Some e => ret (Some e)
    | None =>
        d <- field Driver ;;
        WaitFor (MachineInState d desiredState)
    end.

Definition Start : M W (option error) :=
  d <- field Driver ;;
  runActionForState (call (Driver_do Driver_Start d)) state.Running.

Definition Stop : M W (option error) :=
  d <- field Driver ;;
  runActionForState (call (Driver_do Driver_Stop d)) state.Stopped.

Definition Kill : M W (option error) :=
  d <- field Driver ;;
  runActionForState (call (Driver_do Driver_Kill d)) state.Stopped.

(** The tail of [Restart], from line 114 on. *)
Definition Restart_start_phase : M W (option error) :=
  err <- Start ;;
  match err with
  | Some e => ret (Some e)
  | None =>
      d <- field Driver ;;
      err <- WaitFor (MachineInState d state.Running) ;;
      match err with
      | Some e => ret (Some e)
      | None => ret None
      end
  end.

Definition Restart : M W (option error) :=
  d <- field Driver ;;
  running <- MachineInState d state.Running ;;
  if running : bool then
    err <- Stop ;;
    match err with
    | Some e => ret (Some e)
    | None =>
        d <- field Driver ;;
        err <- WaitFor (MachineInState d state.Stopped) ;;
        match err with
        | Some e => ret (Some e)
        | None => Restart_start_phase
        end
    end
  else Restart_start_phase.

Definition Upgrade : M W (option error) :=
  d <- field Driver ;;
  r <- call (Driver_GetState d) ;;
  let (machineState, err) := r in
  match err with
  | Some e => ret (Some e)
  | None =>
      if negb (state.eqb machineState state.Running)
      then ret (Some errMachineMustBeRunningForUpgrade)
      else
        d <- field Driver ;;
        r <- call (provision_DetectProvisioner d) ;;
        let (provisioner, err) := r in
        match err with
        | Some e => ret (Some e)
        | None =>
            call (log_Info "Upgrading docker...") ;;;
            err <- call (Provisioner_Package provisioner "docker" pkgaction_Upgrade) ;;
            match err with
            | Some e => ret (Some e)
            | None =>
                call (log_Info "Restarting docker...") ;;;
                call (Provisioner_Service provisioner "docker" serviceaction_Restart)
            end
        end
  end.

Definition ConfigureAuth : M W (option error) :=
  d <- field Driver ;;
  r <- call (provision_DetectProvisioner d) ;;
  let (provisioner, err) := r in
  match err with
  | Some e => ret (Some e)
  | None =>
      ho <- field HostOptions ;;
      o <- deref ho ;;
      authOptions <- deref (AuthOptions o) ;;
      ho <- field HostOptions ;;
      o <- deref ho ;;
      engineOptions <- deref (EngineOptions o) ;;
      err <- call (Provisioner_Provision provisioner swarm_Options_zero
                                         authOptions engineOptions) ;;
      match err with
      | Some e => ret (Some e)
      | None => ret None
      end
  end.

End Operations.

Arguments MachineInState {I W} backend d desiredState.
Arguments WaitForSpecific {I W} backend f maxAttempts.
Arguments WaitFor {I W} backend f.
Arguments runActionForState {I W} backend action desiredState.
Arguments CreateSSHClient {I W} backend.
Arguments Start {I W} backend.
Arguments Stop {I W} backend.
Arguments Kill {I W} backend.
Arguments Restart_start_phase {I W} backend.
Arguments Restart {I W} backend.
Arguments Upgrade {I W} backend.
Arguments ConfigureAuth {I W} backend.

(** ** Vocabulary for the statements *)

Section Vocabulary.

Context {I : Imports}.
Variable W : Type.
Variable backend : Backend W.

(** What the backend answers to a call, and the world it leaves. *)
Definition answer (c : Call) (w : W) : Resp c := fst (backend c w).
Definition after (c : Call) (w : W) : W := snd (backend c w).

(** The three guarded transitions of lines 91-101: the method, the
    mechanical action it hands to [runActionForState], its target state. *)
Definition guarded_transitions
  : list (M W (option error) * Mechanical * state.State) :=
  [ (Start backend, Driver_Start, state.Running);
    (Stop backend, Driver_Stop, state.Stopped);
    (Kill backend, Driver_Kill, state.Stopped) ].

(** The operations that begin by asking the backend for the state. *)
Definition state_driven_operations : list (M W (option error)) :=
  [ Start backend; Stop backend; Kill backend; Restart backend; Upgrade backend ].

Definition orchestrator_operations : list (M W (option error)) :=
  (state_driven_operations ++ [ ConfigureAuth backend ])%list.

(** A call that belongs to confirmation polling on driver [d]. *)
Definition is_poll (d : drivers_Driver) (c : Call) : Prop :=
  c = Driver_GetState d \/ c = time_Sleep.

(** A computation that leaves the struct behind the receiver alone. *)
Definition frames {A} (m : M W A) : Prop :=
  forall h w, host_after (m h w) = h.

(** The specification's [Restart], where it departs from the code: an
    "already stopped" answer of the inner [Stop] is tolerated and the flow
    continues with the barrier and the start phase. *)
Definition Restart_as_specified : M W (option error) :=
  (d <- field Driver ;;
   running <- MachineInState backend d state.Running ;;
   if running : bool then
     err <- Stop backend ;;
     name <- field Name ;;
     let tolerated :=
       match err with
       | Some e => String.eqb e (errAlreadyInState name state.Stopped)
       | None => true
       end in
     if tolerated then
       d <- field Driver ;;
       err <- WaitFor backend (MachineInState backend d state.Stopped) ;;
       match err with
       | Some e => ret (Some e)
       | None => Restart_start_phase backend
       end
     else ret err
   else Restart_start_phase backend)%host.

End Vocabulary.

Arguments answer {I W} backend c w.
Arguments after {I W} backend c w.
Arguments guarded_transitions {I W} backend.
Arguments state_driven_operations {I W} backend.
Arguments orchestrator_operations {I W} backend.
Arguments frames {I W A} m.
Arguments Restart_as_specified {I W} backend.

(* ------------------------------------------------------------------ *)
(** ** A concrete setting: one VirtualBox-like machine with scripted answers *)

Module Demo.

Definition quote : ascii := "034"%char.

(** [%q] on text that needs no escaping. *)
Definition Quote (s : string) : string := String quote (s ++ String quote "").

#[export] Instance imports : Imports := {|
  drivers_Driver := string;
  provision_Provisioner := string;
  pkgaction_PackageAction := nat;
  pkgaction_Upgrade := 2;
  serviceaction_ServiceAction := nat;
  serviceaction_Restart := 0;
  swarm_Options := list string;
  swarm_Options_zero := [];
  auth_Options := string;
  engine_Options := string;
  ssh_Client := string;
  ssh_ExternalClient_zero := "";
  strconv_Quote := Quote;
  mcnutils_attempts := 60;
  mcnutils_errTimeout := "Maximum number of retries (60) exceeded"
|}.

(** The scripted world: the states the driver will report, one per query
    (the last one stays), and the fixed answer of every other call. *)
Record Sim : Type := {
  reports : list state.State;
  query_err : option error;
  action_err : option error;
  detect_err : option error;
  package_err : option error;
  service_err : option error;
  provision_err : option error;
  hostname_err : option error;
  port_err : option error;
  slept : nat
}.

Definition next_report (w : Sim) : state.State * Sim :=
  match reports w with
  | [] => (state.None, w)
  | [s] => (s, w)
  | s :: rest =>
      (s, {| reports := rest; query_err := query_err w;
             action_err := action_err w; detect_err := detect_err w;
             package_err := package_err w; service_err := service_err w;
             provision_err := provision_err w; hostname_err := hostname_err w;
             port_err := port_err w; slept := slept w |})
  end.

Definition tick (w : Sim) : Sim :=
  {| reports := reports w; query_err := query_err w;
     action_err := action_err w; detect_err := detect_err w;
     package_err := package_err w; service_err := service_err w;
     provision_err := provision_err w; hostname_err := hostname_err w;
     port_err := port_err w; slept := S (slept w) |}.

Definition backend : Backend Sim :=
  fun c =>
    match c as c0 return Sim -> Resp c0 * Sim with
    | Driver_GetState _ =>
        fun w => let (s, w') := next_report w in ((s, query_err w), w')
    | Driver_do _ _ => fun w => (action_err w, w)
    | Driver_GetSSHHostname _ => fun w => (("192.168.99.100", hostname_err w), w)
    | Driver_GetSSHPort _ => fun w => ((22%Z, port_err w), w)
    | Driver_GetSSHKeyPath _ => fun w => ("/home/u/.docker/machine/machines/dev/id_rsa", w)
    | Driver_GetSSHUsername _ => fun w => ("docker", w)
    | provision_DetectProvisioner _ => fun w => (("boot2docker", detect_err w), w)
    | Provisioner_Package _ _ _ => fun w => (package_err w, w)
    | Provisioner_Service _ _ _ => fun w => (service_err w, w)
    | Provisioner_Provision _ _ _ _ => fun w => (provision_err w, w)
    | ssh_NewClient user addr _ _ => fun w => ((user ++ "@" ++ addr, Datatypes.None), w)
    | log_Info _ => fun w => (tt, w)
    | time_Sleep => fun w => (tt, tick w)
    end.

Definition world (observed : list state.State) : Sim :=
  {| reports := observed; query_err := Datatypes.None;
     action_err := Datatypes.None; detect_err := Datatypes.None;
     package_err := Datatypes.None; service_err := Datatypes.None;
     provision_err := Datatypes.None; hostname_err := Datatypes.None;
     port_err := Datatypes.None; slept := 0 |}.

(** The same world with one answer changed. *)
Definition set_errors (w : Sim)
    (query action detect package : option error) : Sim :=
  {| reports := reports w; query_err := query;
     action_err := action; detect_err := detect;
     package_err := package; service_err := service_err w;
     provision_err := provision_err w; hostname_err := hostname_err w;
     port_err := port_err w; slept := slept w |}.

(** A stopped machine; one in Error whose driver cannot stop it; a running
    one whose driver cannot stop it; one the driver cannot reach; a running
    one whose package manager fails. *)
Definition stopped : Sim := world [state.Stopped].

Definition broken : Sim :=
  set_errors (world [state.Error]) Datatypes.None
             (Some "VBoxManage: error: machine is locked") Datatypes.None Datatypes.None.

Definition stuck : Sim :=
  set_errors (world [state.Running]) Datatypes.None
             (Some "VBoxManage: error: machine is locked") Datatypes.None Datatypes.None.

Definition unreachable : Sim :=
  set_errors (world [state.Running]) (Some "dial tcp: i/o timeout")
             Datatypes.None Datatypes.None Datatypes.None.

Definition bad_mirror : Sim :=
  set_errors (world [state.Running]) Datatypes.None Datatypes.None Datatypes.None
             (Some "apt-get: exit status 100").

(** A running machine that stops by itself right after it was observed,
    and comes back once it is started. *)
Definition racing : Sim :=
  world [state.Running; state.Stopped; state.Stopped; state.Stopped; state.Running].

Definition options : Options :=
  {| Options_Driver := "virtualbox"; Memory := 1024; Disk := 20000;
     EngineOptions := Some "engine"; SwarmOptions := Some ["swarm"];
     AuthOptions := Some "auth" |}.

Definition dev : Host :=
  {| ConfigVersion := 1; Driver := "vbox:dev"; DriverName := "virtualbox";
     HostOptions := Some options; Name := "dev"; RawDriver := [] |}.

(** A stopped machine that is up at the first poll after it is started. *)
Definition halted : Sim := world [state.Stopped; state.Stopped; state.Running].

(** A running machine on which no provisioner is detected. *)
Definition unknown_os : Sim :=
  {| reports := [state.Running]; query_err := Datatypes.None;
     action_err := Datatypes.None;
     detect_err := Some "Something went wrong detecting the provisioner";
     package_err := Datatypes.None; service_err := Datatypes.None;
     provision_err := Datatypes.None; hostname_err := Datatypes.None;
     port_err := Datatypes.None; slept := 0 |}.

(** A host struct loaded without its options: [HostOptions] is nil. *)
Definition bare : Host :=
  {| ConfigVersion := 1; Driver := "vbox:dev"; DriverName := "virtualbox";
     HostOptions := Datatypes.None; Name := "dev"; RawDriver := [] |}.

End Demo.

(* ------------------------------------------------------------------ *)
(** ** The accessor of line 153 and more vocabulary *)

Section Accessors.

Context {I : Imports}.
Variable W : Type.

Local Open Scope host_scope.

(** [func (h *Host) AuthOptions() *auth.Options]: the pointer kept in the
    options, read through [h.HostOptions]. *)
Definition Host_AuthOptions : M W (option auth_Options) :=
  ho <- field HostOptions ;;
  o <- deref ho ;;
  ret (AuthOptions o).

(** A computation that, on the host [h], returns a value (no panic), leaves
    the struct alone and makes only calls that satisfy [P]. *)
Definition safe {A} (P : Call -> Prop) (h : Host) (m : M W A) : Prop :=
  forall w,
    host_after (m h w) = h
    /\ (exists a, result (m h w) = Val a)
    /\ Forall P (trace (m h w)).

(** The calls of a stop cycle and of a start cycle on driver [d]. *)
Definition stop_call (d : drivers_Driver) (c : Call) : Prop :=
  is_poll d c \/ c = Driver_do Driver_Stop d.

Definition start_call (d : drivers_Driver) (c : Call) : Prop :=
  is_poll d c \/ c = Driver_do Driver_Start d.

(** The calls of an upgrade on driver [d]. *)
Definition upgrade_call (d : drivers_Driver) (c : Call) : Prop :=
  c = Driver_GetState d
  \/ c = provision_DetectProvisioner d
  \/ (exists msg, c = log_Info msg)
  \/ (exists p, c = Provisioner_Package p "docker" pkgaction_Upgrade)
  \/ (exists p, c = Provisioner_Service p "docker" serviceaction_Restart).

End Accessors.

Arguments Host_AuthOptions {I W}.
Arguments safe {I W A} P h m.

(* ------------------------------------------------------------------ *)
(** * Theorems *)

(** ** Machine names *)

Section HostNames.

Lemma matches_NoMatch s : matches NoMatch s = false.
Proof. induction s; simpl; auto. Qed.

Lemma matches_Alternate r1 r2 s :
  matches (Alternate r1 r2) s = (matches r1 s || matches r2 s)%bool.
Proof. revert r1 r2; induction s; intros; simpl; auto. Qed.

Lemma matches_Concat_NoMatch r s : matches (Concat NoMatch r) s = false.
Proof. induction s; simpl; auto. Qed.

Lemma matches_Concat_EmptyMatch r s : matches (Concat EmptyMatch r) s = matches r s.
Proof.
  destruct s as [|c s]; simpl; auto.
  now rewrite matches_Alternate, matches_Concat_NoMatch.
Qed.

(** One character of the class, then the rest. *)
Lemma matches_class_then rs r c s :
  matches (Concat (CharClass rs) r) (String c s)
  = (in_class rs c && matches r s)%bool.
Proof.
  simpl. destruct (in_class rs c); simpl.
  - apply matches_Concat_EmptyMatch.
  - apply matches_Concat_NoMatch.
Qed.

Lemma matches_Star_class rs s :
  matches (Star (CharClass rs)) s = forallb (in_class rs) (list_ascii_of_string s).
Proof.
  induction s as [|c s IH]; simpl; auto.
  destruct (in_class rs c); simpl.
  - now rewrite matches_Concat_EmptyMatch.
  - apply matches_Concat_NoMatch.
Qed.

Lemma in_range_spec c lo hi :
  in_range c (lo, hi) = true
  <-> nat_of_ascii lo <= nat_of_ascii c <= nat_of_ascii hi.
Proof.
  unfold in_range; simpl.
  rewrite andb_true_iff, !Nat.leb_le. tauto.
Qed.

Lemma in_range_single c x : in_range c (x, x) = true <-> c = x.
Proof.
  rewrite in_range_spec. split.
  - intros [H1 H2].
    rewrite <- (ascii_nat_embedding c), <- (ascii_nat_embedding x).
    f_equal. lia.
  - intros ->. lia.
Qed.

Lemma alnum_class c : in_class alnum_ranges c = true <-> alphanumeric c.
Proof.
  unfold in_class, alnum_ranges, alphanumeric. simpl existsb.
  rewrite !orb_true_iff, !in_range_spec. simpl nat_of_ascii.
  intuition (try discriminate).
Qed.

Lemma name_class c :
  in_class (alnum_ranges ++ [("-"%char, "-"%char); ("."%char, "."%char)]) c = true
  <-> name_char c.
Proof.
  unfold in_class, name_char. rewrite existsb_app, orb_true_iff.
  fold (in_class alnum_ranges c). rewrite alnum_class. simpl existsb.
  rewrite !orb_true_iff, !in_range_single.
  intuition (try discriminate).
Qed.

(** The derivative matcher decides the language of the expression. *)
Lemma Lang_Concat_inv r1 r2 s :
  Lang (Concat r1 r2) s -> exists s1 s2, s = s1 ++ s2 /\ Lang r1 s1 /\ Lang r2 s2.
Proof. intros H. inversion H; subst. eauto. Qed.

Lemma Lang_Alternate_inv r1 r2 s :
  Lang (Alternate r1 r2) s -> Lang r1 s \/ Lang r2 s.
Proof. intros H. inversion H; subst; auto. Qed.

Lemma Lang_Star_inv r s :
  Lang (Star r) s ->
  s = "" \/ exists c s1 s2,
      s = String c (s1 ++ s2) /\ Lang r (String c s1) /\ Lang (Star r) s2.
Proof.
  intros H. inversion H; subst; [auto | right].
  do 3 eexists. repeat split; eauto.
Qed.

Lemma Lang_Class_inv rs s :
  Lang (CharClass rs) s -> exists c, s = String c "" /\ in_class rs c = true.
Proof. intros H. inversion H; subst. eauto. Qed.

Lemma append_empty (s1 s2 : string) : s1 ++ s2 = "" -> s1 = "" /\ s2 = "".
Proof. destruct s1; simpl; [auto | discriminate]. Qed.

Lemma nullable_Lang r : nullable r = true <-> Lang r "".
Proof.
  induction r as [| |rs|r1 IH1 r2 IH2|r1 IH1 r2 IH2|r IH]; simpl.
  - split; [discriminate | inversion 1].
  - split; [constructor | reflexivity].
  - split; [discriminate | intros H; apply Lang_Class_inv in H as (c & E & _); discriminate].
  - rewrite andb_true_iff, IH1, IH2. split.
    + intros [H1 H2]. exact (LConcat H1 H2).
    + intros H. apply Lang_Concat_inv in H as (s1 & s2 & E & H1 & H2).
      symmetry in E. apply append_empty in E as [-> ->]. auto.
  - rewrite orb_true_iff, IH1, IH2. split.
    + intros [H|H]; [apply LAltL | apply LAltR]; auto.
    + apply Lang_Alternate_inv.
  - split; [constructor | reflexivity].
Qed.

Lemma Lang_Concat_cons r1 r2 c s :
  Lang (Concat r1 r2) (String c s)
  <-> (exists s1 s2, s = s1 ++ s2 /\ Lang r1 (String c s1) /\ Lang r2 s2)
      \/ (Lang r1 "" /\ Lang r2 (String c s)).
Proof.
  split.
  - intros H. apply Lang_Concat_inv in H as (s1 & s2 & E & H1 & H2).
    destruct s1 as [|c1 s1]; simpl in E.
    + right. subst s2. auto.
    + left. injection E as -> ->. eauto.
  - intros [(s1 & s2 & -> & H1 & H2) | [H1 H2]].
    + exact (LConcat H1 H2).
    + exact (LConcat H1 H2).
Qed.

Lemma Lang_Star_cons r c s :
  Lang (Star r) (String c s)
  <-> exists s1 s2, s = s1 ++ s2 /\ Lang r (String c s1) /\ Lang (Star r) s2.
Proof.
  split.
  - intros H. apply Lang_Star_inv in H as [E | (c1 & s1 & s2 & E & H1 & H2)].
    + discriminate.
    + injection E as -> ->. eauto.
  - intros (s1 & s2 & -> & H1 & H2). exact (LStarS H1 H2).
Qed.

Lemma deriv_Lang r : forall c s, Lang (deriv r c) s <-> Lang r (String c s).
Proof.
  induction r as [| |rs|r1 IH1 r2 IH2|r1 IH1 r2 IH2|r IH]; intros c s; simpl.
  - split; inversion 1.
  - split; inversion 1.
  - destruct (in_class rs c) eqn:E; split; intros H.
    + inversion H; subst. now constructor.
    + apply Lang_Class_inv in H as (c' & E' & _). injection E' as -> ->. constructor.
    + inversion H.
    + apply Lang_Class_inv in H as (c' & E' & Hc). injection E' as -> ->. congruence.
  - rewrite Lang_Concat_cons.
    destruct (nullable r1) eqn:N.
    + split.
      * intros H. apply Lang_Alternate_inv in H as [H | H].
        -- apply Lang_Concat_inv in H as (s1 & s2 & -> & H1 & H2).
           left. exists s1, s2. rewrite <- IH1. auto.
        -- right. rewrite <- IH2, <- nullable_Lang. auto.
      * intros [(s1 & s2 & -> & H1 & H2) | [H1 H2]].
        -- apply LAltL. apply LConcat; auto. now apply IH1.
        -- apply LAltR. now apply IH2.
    + split.
      * intros H. apply Lang_Concat_inv in H as (s1 & s2 & -> & H1 & H2).
        left. exists s1, s2. rewrite <- IH1. auto.
      * intros [(s1 & s2 & -> & H1 & H2) | [H1 H2]].
        -- apply LConcat; auto. now apply IH1.
        -- apply nullable_Lang in H1. congruence.
  - split; intros H; apply Lang_Alternate_inv in H as [H | H].
    + apply LAltL; now apply IH1.
    + apply LAltR; now apply IH2.
    + apply LAltL; now apply IH1.
    + apply LAltR; now apply IH2.
  - rewrite Lang_Star_cons. split.
    + intros H. apply Lang_Concat_inv in H as (s1 & s2 & -> & H1 & H2).
      exists s1, s2. rewrite <- IH. auto.
    + intros (s1 & s2 & -> & H1 & H2). apply LConcat; auto. now apply IH.
Qed.

Theorem matches_Lang s : forall r, matches r s = true <-> Lang r s.
Proof.
  induction s as [|c s IH]; intros r; simpl.
  - apply nullable_Lang.
  - rewrite IH. apply deriv_Lang.
Qed.

(** C9. [ValidateHostName] accepts exactly the texts that start with an
    alphanumeric character (a-z, A-Z, 0-9) and continue with zero or more
    characters that are alphanumeric, a hyphen or a dot. *)
Theorem ValidateHostName_iff_hostname_like (s : string) :
  ValidateHostName s = true <-> hostname_like s.
Proof.
  unfold ValidateHostName, validHostNamePattern, validHostNameChars, hostname_like.
  destruct s as [|c rest].
  - simpl. split; [discriminate|]. intros (c & r & E & _). discriminate.
  - rewrite matches_class_then, andb_true_iff, alnum_class, matches_Star_class.
    rewrite forallb_forall.
    split.
    + intros [Hc Hr]. exists c, rest. repeat split; auto.
      apply Forall_forall. intros x Hx. apply name_class. auto.
    + intros (c' & r' & E & Hc & Hr). inversion E; subst c' r'.
      rewrite Forall_forall in Hr.
      split; auto. intros x Hx. apply name_class. auto.
Qed.

End HostNames.

(* ------------------------------------------------------------------ *)
(** ** The laws of the monad *)

Section Laws.

Context {I : Imports}.
Variable W : Type.
Variable backend : Backend W.

Local Open Scope host_scope.

Lemma prepend_nil A (r : Run W A) : prepend [] r = r.
Proof. destruct r; reflexivity. Qed.

Lemma prepend_prepend A (t1 t2 : list Call) (r : Run W A) :
  prepend t1 (prepend t2 r) = prepend (t1 ++ t2) r.
Proof. unfold prepend; simpl. now rewrite app_assoc. Qed.

Lemma prepend_mkRun A t (x : Res A) (h : Host) (w : W) t' :
  prepend t (mkRun x h w t') = mkRun x h w (t ++ t').
Proof. reflexivity. Qed.

Lemma bind_ret A B (a : A) (k : A -> M W B) h w :
  bind (ret a) k h w = k a h w.
Proof. unfold bind, ret; simpl. apply prepend_nil. Qed.

Lemma bind_field A B (f : Host -> A) (k : A -> M W B) h w :
  bind (field f) k h w = k (f h) h w.
Proof. unfold bind, field; simpl. apply prepend_nil. Qed.

Lemma bind_call B (c : Call) (k : Resp c -> M W B) h w :
  bind (call backend c) k h w
  = prepend [c] (k (answer backend c w) h (after backend c w)).
Proof. reflexivity. Qed.

Lemma bind_deref_Some A B (a : A) (k : A -> M W B) h w :
  bind (deref (Some a)) k h w = k a h w.
Proof. apply bind_ret. Qed.

Lemma bind_deref_None A B (k : A -> M W B) h w :
  bind (deref None) k h w = mkRun Panic h w [].
Proof. reflexivity. Qed.

Lemma bind_assoc A B C (m : M W A) (k1 : A -> M W B) (k2 : B -> M W C) h w :
  bind (bind m k1) k2 h w = bind m (fun a => bind (k1 a) k2) h w.
Proof.
  unfold bind.
  destruct (m h w) as [[a|] h1 w1 t1]; simpl; [|reflexivity].
  destruct (k1 a h1 w1) as [[b|] h2 w2 t2]; simpl; [|reflexivity].
  now rewrite prepend_prepend.
Qed.

(** Running [m] first, when its outcome is known. *)
Lemma bind_Val A B (m : M W A) (k : A -> M W B) h w a h1 w1 t :
  m h w = mkRun (Val a) h1 w1 t ->
  bind m k h w = prepend t (k a h1 w1).
Proof. intros E. unfold bind. now rewrite E. Qed.

Lemma bind_Panic A B (m : M W A) (k : A -> M W B) h w h1 w1 t :
  m h w = mkRun Panic h1 w1 t ->
  bind m k h w = mkRun Panic h1 w1 t.
Proof. intros E. unfold bind. now rewrite E. Qed.

End Laws.

(* ------------------------------------------------------------------ *)
(** ** Guard, action, confirmation *)

Section Orchestrator.

Context {I : Imports}.
Variable W : Type.
Variable backend : Backend W.

Local Open Scope host_scope.

Local Abbreviation GetState h := (Driver_GetState (Driver h)).

Lemma state_eqb_refl s : state.eqb s s = true.
Proof. unfold state.eqb. destruct (state.State_eq_dec s s); congruence. Qed.

Lemma state_eqb_neq a b : a <> b -> state.eqb a b = false.
Proof. unfold state.eqb. destruct (state.State_eq_dec a b); congruence. Qed.

(** The predicate makes one query and nothing else. *)
Lemma MachineInState_shape d s h w :
  exists b : bool,
    MachineInState backend d s h w
    = mkRun (Val b) h (after backend (Driver_GetState d) w) [Driver_GetState d].
Proof.
  unfold MachineInState. rewrite bind_call.
  destruct (snd (answer backend (Driver_GetState d) w)); eexists; reflexivity.
Qed.

Lemma MachineInState_observed d s h w cur :
  answer backend (Driver_GetState d) w = (cur, None) ->
  MachineInState backend d s h w
  = mkRun (Val (state.eqb cur s)) h (after backend (Driver_GetState d) w)
          [Driver_GetState d].
Proof.
  intros E. unfold MachineInState. rewrite bind_call, E. reflexivity.
Qed.

(** The guard of [runActionForState] holds: nothing but the query happens. *)
Lemma runActionForState_already action s h w :
  answer backend (GetState h) w = (s, None) ->
  runActionForState backend action s h w
  = mkRun (Val (Some (errAlreadyInState (Name h) s))) h
          (after backend (GetState h) w) [GetState h].
Proof.
  intros E. unfold runActionForState.
  rewrite bind_field.
  erewrite bind_Val by (apply MachineInState_observed; eassumption).
  rewrite state_eqb_refl, bind_field. reflexivity.
Qed.

(** The guard lets the action through. *)
Lemma runActionForState_dispatch action s h w :
  result (MachineInState backend (Driver h) s h w) = Val false ->
  runActionForState backend action s h w
  = prepend [GetState h]
      (bind action
         (fun err =>
            match err with
            | Some e => ret (Some e)
            | None => d <- field Driver ;;
                      WaitFor backend (MachineInState backend d s)
            end)
         h (after backend (GetState h) w)).
Proof.
  intros G. unfold runActionForState.
  rewrite bind_field.
  destruct (MachineInState_shape (Driver h) s h w) as [b E].
  rewrite E in G. simpl in G. injection G as ->.
  now rewrite (bind_Val _ _ _ _ E).
Qed.

Lemma MachineInState_differs d s h w cur :
  answer backend (Driver_GetState d) w = (cur, None) ->
  cur <> s ->
  result (MachineInState backend d s h w) = Val false.
Proof.
  intros E N. rewrite (MachineInState_observed s h w E). simpl.
  now rewrite (state_eqb_neq N).
Qed.

(** The poller never panics, leaves the struct alone, and only polls. *)
Lemma WaitForSpecific_polls d s n : forall h w,
  let r := WaitForSpecific backend (MachineInState backend d s) n h w in
  (exists e, result r = Val e) /\ host_after r = h /\ Forall (is_poll d) (trace r).
Proof.
  induction n as [|n IH]; intros h w; simpl.
  - repeat split; eauto.
  - destruct (MachineInState_shape d s h w) as [b E].
    rewrite (bind_Val _ _ _ _ E).
    destruct b; cbv beta iota.
    + simpl. repeat split; eauto; repeat constructor; now left.
    + rewrite (bind_call backend time_Sleep).
      destruct (IH h (after backend time_Sleep (after backend (Driver_GetState d) w)))
        as ((e & He) & Hh & Ht).
      rewrite prepend_prepend. simpl. repeat split; eauto.
      constructor; [now left|constructor; [now right|exact Ht]].
Qed.

Lemma WaitFor_polls d s h w :
  let r := WaitFor backend (MachineInState backend d s) h w in
  (exists e, result r = Val e) /\ host_after r = h /\ Forall (is_poll d) (trace r).
Proof. apply WaitForSpecific_polls. Qed.

(** Each guarded transition is [runActionForState] on its own action. *)
Lemma guarded_transition_unfold op a target :
  In (op, a, target) (guarded_transitions backend) ->
  forall h w,
    op h w
    = runActionForState backend (call backend (Driver_do a (Driver h))) target h w.
Proof.
  unfold guarded_transitions. simpl.
  intros [E|[E|[E|[]]]] h w; injection E as <- <- <-;
    [unfold Start | unfold Stop | unfold Kill]; now rewrite bind_field.
Qed.

Lemma guarded_transition_target op a target :
  In (op, a, target) (guarded_transitions backend) ->
  strings.ToLower (state.String target)
  = if state.eqb target state.Running then "running" else "stopped".
Proof.
  unfold guarded_transitions. simpl.
  intros [E|[E|[E|[]]]]; injection E as <- <- <-; reflexivity.
Qed.

(** C1. A machine whose observed state already is the target of the
    requested operation: Start (target Running), Stop and Kill (target
    Stopped) fail with the error "Machine <name> is already <state>.", the
    only call made is the guard's state query (no mechanical action, no
    polling), and the world is the one that query left. *)
Theorem already_in_target_state_fails_without_action op a target h w :
  In (op, a, target) (guarded_transitions backend) ->
  answer backend (GetState h) w = (target, None) ->
  op h w = mkRun (Val (Some (errAlreadyInState (Name h) target))) h
                 (after backend (GetState h) w) [GetState h]
  /\ errAlreadyInState (Name h) target
     = "Machine " ++ strconv_Quote (Name h) ++ " is already "
         ++ (if state.eqb target state.Running then "running" else "stopped")
         ++ "."
  /\ (forall m d, ~ In (Driver_do m d) (trace (op h w)))
  /\ ~ In time_Sleep (trace (op h w)).
Proof.
  intros Hin E.
  rewrite (guarded_transition_unfold Hin).
  erewrite runActionForState_already by eassumption.
  unfold errAlreadyInState. rewrite (guarded_transition_target Hin).
  repeat split; simpl; intros; intuition discriminate.
Qed.

(** C5. Guard, then mechanical action, then confirmation polling.  The
    guard's state query is the first call.  When the guard passes (the
    machine is not observed in the target state: say it is in Error and
    Stop is called) the action is the second call; if it returns an error
    the operation fails with exactly that error and nothing is polled; if
    it succeeds, everything after it is polling and the outcome is the
    poller's. *)
Theorem guard_precedes_action_precedes_polling op a target h w :
  In (op, a, target) (guarded_transitions backend) ->
  let d := Driver h in
  let w1 := after backend (Driver_GetState d) w in
  let w2 := after backend (Driver_do a d) w1 in
  result (MachineInState backend d target h w) = Val false ->
  match answer backend (Driver_do a d) w1 with
  | Some e =>
      op h w = mkRun (Val (Some e)) h w2 [Driver_GetState d; Driver_do a d]
  | None =>
      let poll := WaitFor backend (MachineInState backend d target) h w2 in
      op h w = prepend [Driver_GetState d; Driver_do a d] poll
      /\ Forall (is_poll d) (trace poll)
  end.
Proof.
  intros Hin d w1 w2 G.
  rewrite (guarded_transition_unfold Hin).
  erewrite runActionForState_dispatch by exact G.
  rewrite (bind_call backend (Driver_do a (Driver h))). fold d w1 w2.
  destruct (answer backend (Driver_do a d) w1) as [e|].
  - reflexivity.
  - rewrite bind_field, prepend_prepend. split; [reflexivity|].
    apply WaitFor_polls.
Qed.

(** ** Upgrade *)

(** C3. Upgrade of a machine whose queried state is not Running fails with
    the error "Error: machine must be running to upgrade."; the state query
    is the only call made, so neither Package nor Service is invoked. *)
Theorem Upgrade_requires_running h w s :
  answer backend (GetState h) w = (s, None) ->
  s <> state.Running ->
  Upgrade backend h w
  = mkRun (Val (Some errMachineMustBeRunningForUpgrade)) h
          (after backend (GetState h) w) [GetState h]
  /\ errMachineMustBeRunningForUpgrade = "Error: machine must be running to upgrade."
  /\ (forall p n a, ~ In (Provisioner_Package p n a) (trace (Upgrade backend h w)))
  /\ (forall p n a, ~ In (Provisioner_Service p n a) (trace (Upgrade backend h w))).
Proof.
  intros E N.
  assert (R : Upgrade backend h w
              = mkRun (Val (Some errMachineMustBeRunningForUpgrade)) h
                      (after backend (GetState h) w) [GetState h]).
  { unfold Upgrade.
    rewrite bind_field, (bind_call backend (GetState h)), E.
    cbv beta iota. now rewrite (state_eqb_neq N). }
  rewrite R. repeat split; simpl; intros; intuition discriminate.
Qed.

(** C10. When the state query of Upgrade itself fails, Upgrade fails with
    exactly the error of the query, whatever state came with it, and makes
    no further call: no detection, no Package, no Service. *)
Theorem Upgrade_propagates_query_error h w s e :
  answer backend (GetState h) w = (s, Some e) ->
  Upgrade backend h w
  = mkRun (Val (Some e)) h (after backend (GetState h) w) [GetState h].
Proof.
  intros E. unfold Upgrade.
  now rewrite bind_field, (bind_call backend (GetState h)), E.
Qed.

(** C4. Upgrade of a Running machine whose provisioner is detected:
    Package("docker", Upgrade) is invoked before Service("docker", Restart);
    when Package fails Upgrade returns that error and Service is not
    invoked; otherwise the result is that of Service. *)
Theorem Upgrade_package_before_service h w p :
  let d := Driver h in
  let detect := provision_DetectProvisioner d in
  let upgrading := log_Info "Upgrading docker..." in
  let package := Provisioner_Package p "docker" pkgaction_Upgrade in
  let restarting := log_Info "Restarting docker..." in
  let service := Provisioner_Service p "docker" serviceaction_Restart in
  let w1 := after backend (Driver_GetState d) w in
  let w2 := after backend detect w1 in
  let w3 := after backend upgrading w2 in
  let w4 := after backend package w3 in
  let w5 := after backend restarting w4 in
  answer backend (Driver_GetState d) w = (state.Running, None) ->
  answer backend detect w1 = (p, None) ->
  match answer backend package w3 with
  | Some e =>
      Upgrade backend h w
      = mkRun (Val (Some e)) h w4 [Driver_GetState d; detect; upgrading; package]
  | None =>
      Upgrade backend h w
      = mkRun (Val (answer backend service w5)) h (after backend service w5)
              [Driver_GetState d; detect; upgrading; package; restarting; service]
  end.
Proof.
  cbv zeta. intros E D.
  set (w3 := after backend (log_Info "Upgrading docker...")
               (after backend (provision_DetectProvisioner (Driver h))
                  (after backend (GetState h) w))).
  set (package := Provisioner_Package p "docker" pkgaction_Upgrade).
  assert (R : Upgrade backend h w
              = prepend [GetState h; provision_DetectProvisioner (Driver h);
                         log_Info "Upgrading docker..."; package]
                  (match answer backend package w3 with
                   | Some e => ret (Some e)
                   | None =>
                       bind (call backend (log_Info "Restarting docker..."))
                            (fun _ => call backend
                               (Provisioner_Service p "docker" serviceaction_Restart))
                   end h (after backend package w3))).
  { unfold Upgrade.
    rewrite bind_field, (bind_call backend (GetState h)), E.
    cbv beta iota. rewrite state_eqb_refl.
    change (negb true) with false. cbv iota.
    rewrite bind_field, (bind_call backend (provision_DetectProvisioner (Driver h))), D.
    cbv beta iota.
    rewrite (bind_call backend (log_Info "Upgrading docker...")).
    rewrite (bind_call backend (Provisioner_Package p "docker" pkgaction_Upgrade)).
    now rewrite !prepend_prepend. }
  rewrite R.
  destruct (answer backend package w3) as [e|]; [reflexivity|].
  rewrite (bind_call backend (log_Info "Restarting docker...")).
  reflexivity.
Qed.

(** ** ConfigureAuth *)

(** C7, for a host whose options are there.  ConfigureAuth on a machine
    whose HostOptions, AuthOptions and EngineOptions pointers are not nil:
    the provisioner is detected first; a detection error is
    returned as it is and nothing else is called; otherwise Provision is
    invoked on the detected provisioner with the zero swarm options and the
    machine's own auth and engine options, and its result is returned as it
    is.  ConfigureAuth succeeds exactly when both steps succeed. *)
Theorem ConfigureAuth_detects_then_provisions h w o au en :
  HostOptions h = Some o ->
  AuthOptions o = Some au ->
  EngineOptions o = Some en ->
  let detect := provision_DetectProvisioner (Driver h) in
  let w1 := after backend detect w in
  let provision :=
    Provisioner_Provision (fst (answer backend detect w)) swarm_Options_zero au en in
  match snd (answer backend detect w) with
  | Some e => ConfigureAuth backend h w = mkRun (Val (Some e)) h w1 [detect]
  | None =>
      ConfigureAuth backend h w
      = mkRun (Val (answer backend provision w1)) h (after backend provision w1)
              [detect; provision]
  end
  /\ (result (ConfigureAuth backend h w) = Val None
      <-> snd (answer backend detect w) = None
          /\ answer backend provision w1 = None).
Proof.
  cbv zeta. intros Ho Ha He.
  assert (R : ConfigureAuth backend h w
              = let detect := provision_DetectProvisioner (Driver h) in
                let w1 := after backend detect w in
                let provision :=
                  Provisioner_Provision (fst (answer backend detect w))
                                        swarm_Options_zero au en in
                match snd (answer backend detect w) with
                | Some e => mkRun (Val (Some e)) h w1 [detect]
                | None => mkRun (Val (answer backend provision w1)) h
                                (after backend provision w1) [detect; provision]
                end).
  { cbv zeta. unfold ConfigureAuth.
    rewrite bind_field, (bind_call backend (provision_DetectProvisioner (Driver h))).
    destruct (answer backend (provision_DetectProvisioner (Driver h)) w) as [p [e|]];
      cbv beta iota; simpl fst; simpl snd; [reflexivity|].
    rewrite bind_field, Ho, bind_deref_Some, Ha, bind_deref_Some.
    rewrite bind_field, Ho, bind_deref_Some, He, bind_deref_Some.
    rewrite (bind_call backend (Provisioner_Provision p swarm_Options_zero au en)).
    match goal with |- context [match ?x with Some _ => _ | None => _ end] =>
      destruct x end; reflexivity. }
  rewrite R. cbv zeta. split.
  - destruct (snd (answer backend (provision_DetectProvisioner (Driver h)) w)); reflexivity.
  - destruct (snd (answer backend (provision_DetectProvisioner (Driver h)) w)); simpl; split.
    + discriminate.
    + intros [? _]; discriminate.
    + intros E. injection E as E. auto.
    + intros [_ E]. now rewrite E.
Qed.

(** ** CreateSSHClient *)

(** C8. CreateSSHClient asks the driver for the SSH hostname, then for the
    SSH port.  A failing hostname query ends it with that error before the
    port is asked for; a failing port query ends it with the port's error;
    otherwise the client is built by the SSH factory from the reported user
    name, hostname, port and key path. *)
Theorem CreateSSHClient_hostname_before_port h w :
  let d := Driver h in
  let hostname := Driver_GetSSHHostname d in
  let port := Driver_GetSSHPort d in
  let keypath := Driver_GetSSHKeyPath d in
  let username := Driver_GetSSHUsername d in
  let w1 := after backend hostname w in
  let w2 := after backend port w1 in
  let w3 := after backend keypath w2 in
  let w4 := after backend username w3 in
  let newClient :=
    ssh_NewClient (answer backend username w3)
                  (fst (answer backend hostname w))
                  (fst (answer backend port w1))
                  {| Keys := [answer backend keypath w2] |} in
  match snd (answer backend hostname w) with
  | Some e =>
      CreateSSHClient backend h w
      = mkRun (Val (ssh_ExternalClient_zero, Some e)) h w1 [hostname]
  | None =>
      match snd (answer backend port w1) with
      | Some e =>
          CreateSSHClient backend h w
          = mkRun (Val (ssh_ExternalClient_zero, Some e)) h w2 [hostname; port]
      | None =>
          CreateSSHClient backend h w
          = mkRun (Val (answer backend newClient w4)) h (after backend newClient w4)
                  [hostname; port; keypath; username; newClient]
      end
  end.
Proof.
  cbv zeta. unfold CreateSSHClient.
  rewrite bind_field, (bind_call backend (Driver_GetSSHHostname (Driver h))).
  destruct (answer backend (Driver_GetSSHHostname (Driver h)) w) as [addr [e|]];
    cbv beta iota; simpl fst; simpl snd; [reflexivity|].
  rewrite bind_field, (bind_call backend (Driver_GetSSHPort (Driver h))).
  match goal with |- context [answer backend ?c ?x] =>
    destruct (answer backend c x) as [pt [e|]] end;
    cbv beta iota; simpl fst; simpl snd; [reflexivity|].
  rewrite bind_field, (bind_call backend (Driver_GetSSHKeyPath (Driver h))).
  cbv beta zeta.
  rewrite bind_field, (bind_call backend (Driver_GetSSHUsername (Driver h))).
  reflexivity.
Qed.

(** ** Restart *)

(** What a guarded transition can call: the guard and the poller query the
    state and sleep, and the one mechanical action is its own. *)
Lemma guarded_transition_calls op a target h w :
  In (op, a, target) (guarded_transitions backend) ->
  Forall (fun c => is_poll (Driver h) c \/ c = Driver_do a (Driver h))
         (trace (op h w)).
Proof.
  intros Hin. rewrite (guarded_transition_unfold Hin).
  unfold runActionForState. rewrite bind_field.
  destruct (MachineInState_shape (Driver h) target h w) as [b E].
  rewrite (bind_Val _ _ _ _ E).
  destruct b; cbv beta iota.
  - rewrite bind_field. simpl. constructor; [left; now left | constructor].
  - rewrite (bind_call backend (Driver_do a (Driver h))).
    set (w2 := after backend (Driver_do a (Driver h)) _).
    destruct (answer backend (Driver_do a (Driver h)) _) as [e|].
    + simpl. constructor; [left; now left|].
      constructor; [now right | constructor].
    + rewrite bind_field. simpl.
      constructor; [left; now left|]. constructor; [now right|].
      destruct (WaitFor_polls (Driver h) target h w2) as (_ & _ & Hp).
      eapply Forall_impl; [|exact Hp]. intros c Hc. now left.
Qed.

Lemma Stop_never_starts h w d :
  ~ In (Driver_do Driver_Start d) (trace (Stop backend h w)).
Proof.
  intros Hin.
  assert (G : In (Stop backend, Driver_Stop, state.Stopped) (guarded_transitions backend))
    by (simpl; auto).
  pose proof (guarded_transition_calls h w G) as F.
  rewrite Forall_forall in F. destruct (F _ Hin) as [[E|E]|E]; discriminate.
Qed.

(** An error of [m] ends a computation that checks it with [if err != nil]. *)
Lemma bind_error_propagates (m : M W (option error)) (k : M W (option error)) h w e :
  result (m h w) = Val (Some e) ->
  bind m (fun err => match err with Some e' => ret (Some e') | None => k end) h w
  = m h w.
Proof.
  intros S. unfold bind.
  destruct (m h w) as [r h1 w1 t]. simpl in *. subst r.
  unfold prepend, ret. simpl. now rewrite app_nil_r.
Qed.

(** C2, as the code has it.  On a machine first observed Running, whatever
    error the inner [Stop] returns, an "already stopped" one included, is
    what Restart returns: Restart ends where [Stop] ended, and the driver's
    Start is never invoked. *)
Theorem Restart_propagates_every_stop_error h w e :
  answer backend (GetState h) w = (state.Running, None) ->
  let stop := Stop backend h (after backend (GetState h) w) in
  result stop = Val (Some e) ->
  Restart backend h w = prepend [GetState h] stop
  /\ result (Restart backend h w) = Val (Some e)
  /\ forall d, ~ In (Driver_do Driver_Start d) (trace (Restart backend h w)).
Proof.
  intros E stop S.
  assert (R : Restart backend h w = prepend [GetState h] stop).
  { unfold Restart. rewrite bind_field.
    erewrite bind_Val by (apply MachineInState_observed; eassumption).
    rewrite state_eqb_refl. cbv iota.
    now rewrite (bind_error_propagates _ _ _ _ S). }
  rewrite R. repeat split; [exact S|].
  intros d [D|D]; [discriminate|]. revert D. apply Stop_never_starts.
Qed.

(** ** The receiver *)

Lemma frames_ret A (a : A) : frames (ret (W:=W) a).
Proof. intros h w; reflexivity. Qed.

Lemma frames_field A (f : Host -> A) : frames (field (W:=W) f).
Proof. intros h w; reflexivity. Qed.

Lemma frames_call c : frames (call backend c).
Proof. intros h w; reflexivity. Qed.

Ltac frame_call :=
  match goal with |- frames (call _ ?c) => exact (frames_call c) end.

Lemma frames_deref A (p : option A) : frames (deref (W:=W) p).
Proof. destruct p; intros h w; reflexivity. Qed.

Lemma frames_bind A B (m : M W A) (k : A -> M W B) :
  frames m -> (forall a, frames (k a)) -> frames (bind m k).
Proof.
  intros Hm Hk h w. unfold bind.
  pose proof (Hm h w) as E.
  destruct (m h w) as [[a|] h1 w1 t]; simpl in *; [|exact E].
  subst h1. apply Hk.
Qed.

Lemma frames_error (err : option error) (m : M W (option error)) :
  frames m ->
  frames (match err with Some e => ret (Some e) | None => m end).
Proof. destruct err; auto using frames_ret. Qed.

Lemma frames_MachineInState d s : frames (MachineInState backend d s).
Proof.
  apply frames_bind; [frame_call|].
  intros r. destruct (snd r); apply frames_ret.
Qed.

Lemma frames_WaitForSpecific (f : M W bool) n :
  frames f -> frames (WaitForSpecific backend f n).
Proof.
  intros Hf. induction n as [|n IH]; simpl; [apply frames_ret|].
  apply frames_bind; [exact Hf|]. intros [|]; [apply frames_ret|].
  apply frames_bind; [frame_call|]. intros _. exact IH.
Qed.

Lemma frames_WaitFor d s : frames (WaitFor backend (MachineInState backend d s)).
Proof. apply frames_WaitForSpecific, frames_MachineInState. Qed.

Lemma frames_runActionForState action s :
  frames action -> frames (runActionForState backend action s).
Proof.
  intros Ha. apply frames_bind; [apply frames_field|]. intros d.
  apply frames_bind; [apply frames_MachineInState|]. intros [|].
  - apply frames_bind; [apply frames_field|]. intros; apply frames_ret.
  - apply frames_bind; [exact Ha|]. intros err. apply frames_error.
    apply frames_bind; [apply frames_field|]. intros; apply frames_WaitFor.
Qed.

Lemma frames_Start : frames (Start backend).
Proof.
  apply frames_bind; [apply frames_field|]. intros d.
  apply frames_runActionForState. frame_call.
Qed.

Lemma frames_Stop : frames (Stop backend).
Proof.
  apply frames_bind; [apply frames_field|]. intros d.
  apply frames_runActionForState. frame_call.
Qed.

Lemma frames_Kill : frames (Kill backend).
Proof.
  apply frames_bind; [apply frames_field|]. intros d.
  apply frames_runActionForState. frame_call.
Qed.

Lemma frames_Restart_start_phase : frames (Restart_start_phase backend).
Proof.
  apply frames_bind; [apply frames_Start|]. intros err. apply frames_error.
  apply frames_bind; [apply frames_field|]. intros d.
  apply frames_bind; [apply frames_WaitFor|]. intros err'.
  destruct err'; apply frames_ret.
Qed.

Lemma frames_Restart : frames (Restart backend).
Proof.
  apply frames_bind; [apply frames_field|]. intros d.
  apply frames_bind; [apply frames_MachineInState|].
  intros [|]; [|apply frames_Restart_start_phase].
  apply frames_bind; [apply frames_Stop|]. intros err. apply frames_error.
  apply frames_bind; [apply frames_field|]. intros d'.
  apply frames_bind; [apply frames_WaitFor|]. intros err'.
  apply frames_error, frames_Restart_start_phase.
Qed.

Lemma frames_Upgrade : frames (Upgrade backend).
Proof.
  apply frames_bind; [apply frames_field|]. intros d.
  apply frames_bind; [frame_call|]. intros [machineState err].
  apply frames_error.
  destruct (negb (state.eqb machineState state.Running)); [apply frames_ret|].
  apply frames_bind; [apply frames_field|]. intros d'.
  apply frames_bind; [frame_call|]. intros [provisioner err'].
  apply frames_error.
  apply frames_bind; [frame_call|]. intros _.
  apply frames_bind; [frame_call|]. intros err''.
  apply frames_error.
  apply frames_bind; [frame_call|]. intros _. frame_call.
Qed.

Lemma frames_ConfigureAuth : frames (ConfigureAuth backend).
Proof.
  apply frames_bind; [apply frames_field|]. intros d.
  apply frames_bind; [frame_call|]. intros [provisioner err].
  apply frames_error.
  apply frames_bind; [apply frames_field|]. intros ho.
  apply frames_bind; [apply frames_deref|]. intros o.
  apply frames_bind; [apply frames_deref|]. intros au.
  apply frames_bind; [apply frames_field|]. intros ho'.
  apply frames_bind; [apply frames_deref|]. intros o'.
  apply frames_bind; [apply frames_deref|]. intros en.
  apply frames_bind; [frame_call|]. intros err'.
  destruct err'; apply frames_ret.
Qed.

(** An operation whose first call is the state query on the host's driver. *)
Lemma guard_first A (k : bool -> M W A) s h w :
  exists rest,
    trace (bind (field Driver)
                (fun d => bind (MachineInState backend d s) k) h w)
    = GetState h :: rest.
Proof.
  rewrite bind_field.
  destruct (MachineInState_shape (Driver h) s h w) as [b E].
  rewrite (bind_Val _ _ _ _ E). simpl. eauto.
Qed.

(** C6. No operation of the orchestrator writes to the machine: after
    Start, Stop, Kill, Restart, Upgrade and ConfigureAuth, however they end,
    the struct behind the receiver (Name, ConfigVersion, DriverName,
    HostOptions, Driver, RawDriver) is the one they started from.  The
    lifecycle state is not kept there: each of the five operations that
    depend on it starts by asking the driver for it. *)
Theorem operations_do_not_write_to_the_host :
  Forall (fun op => forall h w, host_after (op h w) = h)
         (orchestrator_operations backend)
  /\ Forall (fun op => forall h w, exists rest, trace (op h w) = GetState h :: rest)
            (state_driven_operations backend).
Proof.
  split.
  - repeat constructor.
    + apply frames_Start.
    + apply frames_Stop.
    + apply frames_Kill.
    + apply frames_Restart.
    + apply frames_Upgrade.
    + apply frames_ConfigureAuth.
  - repeat constructor; intros h w.
    + unfold Start. rewrite bind_field. apply guard_first.
    + unfold Stop. rewrite bind_field. apply guard_first.
    + unfold Kill. rewrite bind_field. apply guard_first.
    + apply guard_first.
    + unfold Upgrade. rewrite bind_field, (bind_call backend (GetState h)).
      simpl. eauto.
Qed.

End Orchestrator.

(* ------------------------------------------------------------------ *)
(** * Scenarios on the scripted machine *)

Section Scenarios.

Import Demo.

Local Abbreviation vbox := (Driver dev).

(** Start on a machine that is already running. *)
Lemma starting_a_running_machine :
  In (Start backend, Driver_Start, state.Running) (guarded_transitions backend)
  /\ answer backend (Driver_GetState vbox) (world [state.Running])
     = (state.Running, None)
  /\ Start backend dev (world [state.Running])
     = mkRun (Val (Some ("Machine " ++ Quote "dev" ++ " is already running.")))
             dev (world [state.Running]) [Driver_GetState vbox].
Proof.
  assert (Hin : In (Start backend, Driver_Start, state.Running)
                   (guarded_transitions backend)) by (simpl; auto).
  assert (Hq : answer backend (Driver_GetState vbox) (world [state.Running])
               = (state.Running, None)) by reflexivity.
  split; [exact Hin|]. split; [exact Hq|].
  exact (proj1 (already_in_target_state_fails_without_action
                  dev (world [state.Running]) Hin Hq)).
Defined.

(** Stop on a machine in Error whose driver fails to stop it. *)
Lemma stopping_a_broken_machine :
  In (Stop backend, Driver_Stop, state.Stopped) (guarded_transitions backend)
  /\ result (MachineInState backend vbox state.Stopped dev broken) = Val false
  /\ Stop backend dev broken
     = mkRun (Val (Some "VBoxManage: error: machine is locked")) dev broken
             [Driver_GetState vbox; Driver_do Driver_Stop vbox].
Proof.
  assert (Hin : In (Stop backend, Driver_Stop, state.Stopped)
                   (guarded_transitions backend)) by (simpl; auto).
  assert (Hg : result (MachineInState backend vbox state.Stopped dev broken)
               = Val false) by reflexivity.
  split; [exact Hin|]. split; [exact Hg|].
  exact (guard_precedes_action_precedes_polling dev broken Hin Hg).
Defined.

(** Restart on a running machine whose driver fails to stop it. *)
Lemma restarting_a_stuck_machine :
  answer backend (Driver_GetState vbox) stuck = (state.Running, None)
  /\ result (Stop backend dev (after backend (Driver_GetState vbox) stuck))
     = Val (Some "VBoxManage: error: machine is locked")
  /\ result (Restart backend dev stuck)
     = Val (Some "VBoxManage: error: machine is locked").
Proof.
  assert (Hq : answer backend (Driver_GetState vbox) stuck = (state.Running, None))
    by reflexivity.
  assert (Hs : result (Stop backend dev (after backend (Driver_GetState vbox) stuck))
               = Val (Some "VBoxManage: error: machine is locked"))
    by reflexivity.
  split; [exact Hq|]. split; [exact Hs|].
  exact (proj1 (proj2 (Restart_propagates_every_stop_error backend dev stuck Hq Hs))).
Defined.

(** C2, as stated, fails.  The machine is observed Running, the inner
    [Stop] then finds it Stopped and returns "already stopped": Restart
    returns that error after the two state queries and never reaches the
    start phase, where the specification's Restart goes on to start the
    machine and succeeds. *)
Lemma Restart_does_not_tolerate_already_stopped :
  answer backend (Driver_GetState vbox) racing = (state.Running, None)
  /\ result (Stop backend dev (after backend (Driver_GetState vbox) racing))
     = Val (Some (errAlreadyInState "dev" state.Stopped))
  /\ result (Restart backend dev racing)
     = Val (Some (errAlreadyInState "dev" state.Stopped))
  /\ trace (Restart backend dev racing) = [Driver_GetState vbox; Driver_GetState vbox]
  /\ result (Restart_as_specified backend dev racing) = Val None
  /\ In (Driver_do Driver_Start vbox) (trace (Restart_as_specified backend dev racing))
  /\ Restart backend dev racing <> Restart_as_specified backend dev racing.
Proof.
  repeat split; try reflexivity.
  - vm_compute. auto 10.
  - intros E. apply (f_equal (@result _ _ _)) in E. vm_compute in E. discriminate.
Qed.

(** Upgrade on a stopped machine. *)
Lemma upgrading_a_stopped_machine :
  answer backend (Driver_GetState vbox) stopped = (state.Stopped, None)
  /\ state.Stopped <> state.Running
  /\ Upgrade backend dev stopped
     = mkRun (Val (Some "Error: machine must be running to upgrade.")) dev stopped
             [Driver_GetState vbox].
Proof.
  assert (Hq : answer backend (Driver_GetState vbox) stopped = (state.Stopped, None))
    by reflexivity.
  assert (Hn : state.Stopped <> state.Running) by discriminate.
  split; [exact Hq|]. split; [exact Hn|].
  exact (proj1 (Upgrade_requires_running backend dev stopped Hq Hn)).
Defined.

(** Upgrade on a machine whose driver cannot tell its state. *)
Lemma upgrading_an_unreachable_machine :
  answer backend (Driver_GetState vbox) unreachable
  = (state.Running, Some "dial tcp: i/o timeout")
  /\ Upgrade backend dev unreachable
     = mkRun (Val (Some "dial tcp: i/o timeout")) dev unreachable
             [Driver_GetState vbox].
Proof.
  assert (Hq : answer backend (Driver_GetState vbox) unreachable
               = (state.Running, Some "dial tcp: i/o timeout")) by reflexivity.
  split; [exact Hq|].
  exact (Upgrade_propagates_query_error backend dev unreachable Hq).
Defined.

(** Upgrade on a running machine whose package upgrade fails. *)
Lemma upgrading_with_a_bad_mirror :
  answer backend (Driver_GetState vbox) bad_mirror = (state.Running, None)
  /\ answer backend (provision_DetectProvisioner vbox)
            (after backend (Driver_GetState vbox) bad_mirror)
     = ("boot2docker", None)
  /\ Upgrade backend dev bad_mirror
     = mkRun (Val (Some "apt-get: exit status 100")) dev bad_mirror
             [Driver_GetState vbox; provision_DetectProvisioner vbox;
              log_Info "Upgrading docker...";
              Provisioner_Package "boot2docker" "docker" pkgaction_Upgrade].
Proof.
  assert (Hq : answer backend (Driver_GetState vbox) bad_mirror
               = (state.Running, None)) by reflexivity.
  assert (Hd : answer backend (provision_DetectProvisioner vbox)
                      (after backend (Driver_GetState vbox) bad_mirror)
               = ("boot2docker", None)) by reflexivity.
  split; [exact Hq|]. split; [exact Hd|].
  exact (Upgrade_package_before_service backend dev bad_mirror Hq Hd).
Defined.

(** ConfigureAuth on a machine with its options. *)
Lemma configuring_auth_on_dev :
  HostOptions dev = Some options
  /\ AuthOptions options = Some "auth"
  /\ EngineOptions options = Some "engine"
  /\ ConfigureAuth backend dev (world [state.Running])
     = mkRun (Val None) dev (world [state.Running])
             [provision_DetectProvisioner vbox;
              Provisioner_Provision "boot2docker" swarm_Options_zero "auth" "engine"].
Proof.
  assert (Ho : HostOptions dev = Some options) by reflexivity.
  assert (Ha : AuthOptions options = Some "auth") by reflexivity.
  assert (He : EngineOptions options = Some "engine") by reflexivity.
  split; [exact Ho|]. split; [exact Ha|]. split; [exact He|].
  exact (proj1 (ConfigureAuth_detects_then_provisions
                  backend dev (world [state.Running]) Ho Ha He)).
Defined.

(** C7, as stated for every machine, fails.  On a host struct without its
    options the provisioner is detected, without error, and the
    dereference in line 172 then panics: Provision is never invoked, and
    ConfigureAuth neither succeeds nor returns an error, although no step
    has failed. *)
Lemma ConfigureAuth_on_a_bare_host_panics :
  snd (answer backend (provision_DetectProvisioner (Driver bare))
              (world [state.Running])) = None
  /\ ConfigureAuth backend bare (world [state.Running])
     = mkRun Panic bare (world [state.Running])
             [provision_DetectProvisioner (Driver bare)]
  /\ (forall p sw au en,
        ~ In (Provisioner_Provision p sw au en)
             (trace (ConfigureAuth backend bare (world [state.Running]))))
  /\ (forall r, result (ConfigureAuth backend bare (world [state.Running])) <> Val r).
Proof.
  split; [reflexivity|]. split; [reflexivity|]. split.
  - intros p sw au en [X|[]]. discriminate.
  - intros r X. discriminate.
Qed.

(** The scenarios of the specification: a stopped machine is started and
    observed Stopped, Stopped, Running; a name is checked. *)
Example Start_converges_after_three_polls :
  Start backend dev (world [state.Stopped; state.Stopped; state.Stopped; state.Running])
  = mkRun (Val None) dev
          (tick (tick (world [state.Running])))
          [Driver_GetState vbox; Driver_do Driver_Start vbox;
           Driver_GetState vbox; time_Sleep;
           Driver_GetState vbox; time_Sleep;
           Driver_GetState vbox].
Proof. reflexivity. Qed.

Example ValidateHostName_examples :
  ValidateHostName "dev-1.local" = true
  /\ ValidateHostName "-dev" = false
  /\ ValidateHostName "" = false
  /\ ValidateHostName "a_b" = false.
Proof. repeat split. Qed.

End Scenarios.

(* ------------------------------------------------------------------ *)
(** * Further properties of host.go

    The [Driver] field of a [Host] is a driver.  A Go host whose driver is
    the nil interface panics at its first method call on it, before any
    call reaches a collaborator; the statements below are about the calls
    that are made and about the values that are returned, and say nothing
    on whether an operation returns. *)

Section Further.

Context {I : Imports}.
Variable W : Type.
Variable backend : Backend W.

Local Open Scope host_scope.

Local Abbreviation GetState h := (Driver_GetState (Driver h)).

(** ** Reasoning about [safe] computations *)

Lemma safe_ret A P h (a : A) : safe P h (ret (W:=W) a).
Proof. intros w. simpl. eauto. Qed.

Lemma safe_bind A B P h (m : M W A) (k : A -> M W B) :
  safe P h m -> (forall a, safe P h (k a)) -> safe P h (bind m k).
Proof.
  intros Hm Hk w. unfold bind.
  destruct (Hm w) as (Hh & (a & Ha) & Ht).
  destruct (m h w) as [r h1 w1 t]; simpl in *. subst r h1.
  destruct (Hk a w1) as (Hh' & Ha' & Ht').
  repeat split; auto. apply Forall_app. auto.
Qed.

Lemma safe_field A B P h (f : Host -> A) (k : A -> M W B) :
  safe P h (k (f h)) -> safe P h (bind (field f) k).
Proof. intros Hk w. rewrite bind_field. apply Hk. Qed.

Lemma safe_call P h c : P c -> safe P h (call backend c).
Proof. intros Hc w. simpl. repeat split; eauto. Qed.

Lemma safe_weaken A (P Q : Call -> Prop) h (m : M W A) :
  (forall c, P c -> Q c) -> safe P h m -> safe Q h m.
Proof.
  intros PQ Hm w. destruct (Hm w) as (Hh & Ha & Ht).
  repeat split; auto. eapply Forall_impl; eauto.
Qed.

Lemma safe_error P h (err : option error) (m : M W (option error)) :
  safe P h m ->
  safe P h (match err with Some e => ret (Some e) | None => m end).
Proof. destruct err; auto using safe_ret. Qed.

Ltac safe_call :=
  match goal with |- safe _ _ (call _ ?c) => apply (safe_call _ _ c) end.

Lemma safe_MachineInState P h d s :
  P (Driver_GetState d) -> safe P h (MachineInState backend d s).
Proof.
  intros Hp. apply safe_bind; [safe_call; exact Hp|].
  intros r. destruct (snd r); apply safe_ret.
Qed.

Lemma safe_WaitFor h d s : safe (is_poll d) h (WaitFor backend (MachineInState backend d s)).
Proof.
  intros w. destruct (WaitFor_polls backend d s h w) as (Ha & Hh & Ht). auto.
Qed.

Lemma safe_runActionForState P h action s :
  (forall c, is_poll (Driver h) c -> P c) ->
  safe P h action ->
  safe P h (runActionForState backend action s).
Proof.
  intros Hp Ha. unfold runActionForState.
  apply safe_field.
  apply safe_bind; [apply safe_MachineInState, Hp; now left|].
  intros [|].
  - apply safe_field, safe_ret.
  - apply safe_bind; [exact Ha|]. intros err. apply safe_error.
    apply safe_field. eapply safe_weaken; [exact Hp|apply safe_WaitFor].
Qed.

Lemma safe_Stop h : safe (stop_call (Driver h)) h (Stop backend).
Proof.
  unfold Stop. apply safe_field, safe_runActionForState.
  - intros c Hc; now left.
  - safe_call. now right.
Qed.

Lemma safe_Start h : safe (start_call (Driver h)) h (Start backend).
Proof.
  unfold Start. apply safe_field, safe_runActionForState.
  - intros c Hc; now left.
  - safe_call. now right.
Qed.

Lemma safe_Restart_start_phase h :
  safe (start_call (Driver h)) h (Restart_start_phase backend).
Proof.
  unfold Restart_start_phase.
  apply safe_bind; [apply safe_Start|]. intros err. apply safe_error.
  apply safe_field.
  apply safe_bind.
  - eapply safe_weaken; [|apply safe_WaitFor]. intros c Hc; now left.
  - intros [e|]; apply safe_ret.
Qed.

(** The run of a safe computation, laid out. *)
Lemma safe_run A P h (m : M W A) w :
  safe P h m ->
  exists a w' t, m h w = mkRun (Val a) h w' t /\ Forall P t.
Proof.
  intros Hm. destruct (Hm w) as (Hh & (a & Ha) & Ht).
  destruct (m h w) as [r h1 w1 t]; simpl in *. subst. eauto.
Qed.

(** ** Start, Stop, Kill *)

(** The calls of a guarded transition, in every world: the guard's query
    alone, or the query, the action, and polling. *)
Lemma guarded_transition_shape op a target h w :
  In (op, a, target) (guarded_transitions backend) ->
  trace (op h w) = [GetState h]
  \/ exists polls,
      trace (op h w) = GetState h :: Driver_do a (Driver h) :: polls
      /\ Forall (is_poll (Driver h)) polls.
Proof.
  intros Hin.
  rewrite (guarded_transition_unfold Hin).
  unfold runActionForState. rewrite bind_field.
  destruct (MachineInState_shape backend (Driver h) target h w) as [b E].
  rewrite (bind_Val _ _ _ _ E).
  destruct b; cbv beta iota.
  - rewrite bind_field. simpl. eauto.
  - rewrite (bind_call backend (Driver_do a (Driver h))).
    set (w2 := after backend (Driver_do a (Driver h)) _).
    destruct (answer backend (Driver_do a (Driver h)) _) as [e|].
    + simpl. right. exists []. auto.
    + rewrite bind_field.
      destruct (WaitFor_polls backend (Driver h) target h w2) as (_ & _ & Hp).
      simpl. right. eauto.
Qed.

Lemma mechanical_is_no_poll d m d' : ~ is_poll d (Driver_do m d').
Proof. intros [X|X]; discriminate. Qed.

(** X1. Start, Stop and Kill never repeat or mix mechanical actions.  In
    every world, every call they make is a state query or a sleep on the
    machine's own driver, or the operation's own action on that driver;
    and wherever a mechanical action occurs among the calls, it comes
    directly after the guard's one state query and only polling follows
    it: the action is issued at most once, and never before the guard. *)
Theorem guarded_transition_acts_at_most_once :
  Forall
    (fun t : M W (option error) * Mechanical * state.State =>
       forall h w,
         let op := fst (fst t) in
         let a := snd (fst t) in
         let d := Driver h in
         Forall (fun c => is_poll d c \/ c = Driver_do a d) (trace (op h w))
         /\ forall pre m d' post,
             trace (op h w) = (pre ++ Driver_do m d' :: post)%list ->
             pre = [Driver_GetState d] /\ m = a /\ d' = d
             /\ Forall (is_poll d) post)
    (guarded_transitions backend).
Proof.
  apply Forall_forall. intros [[op a] target] Hin h w. simpl.
  split; [exact (guarded_transition_calls h w Hin)|].
  intros pre m d' post E.
  destruct (guarded_transition_shape h w Hin) as [T | (polls & T & Hp)];
    rewrite T in E.
  - destruct pre as [|c [|c' pre]]; simpl in E; discriminate.
  - destruct pre as [|c pre]; simpl in E; [discriminate|].
    injection E as <- E.
    destruct pre as [|c pre]; simpl in E.
    + injection E as E1 E2 <-. auto.
    + injection E as <- E. exfalso.
      assert (Hin' : In (Driver_do m d') polls)
        by (rewrite E; apply in_or_app; right; now left).
      rewrite Forall_forall in Hp.
      exact (mechanical_is_no_poll (Hp _ Hin')).
Qed.

(** ** Restart *)

(** X2. Restart on a machine that is not observed Running leaves the stop
    phase out: the driver's Stop is never invoked, and what follows the one
    state query is the start cycle. *)
Theorem Restart_skips_stop_unless_running h w :
  result (MachineInState backend (Driver h) state.Running h w) = Val false ->
  Restart backend h w
  = prepend [GetState h]
            (Restart_start_phase backend h (after backend (GetState h) w))
  /\ forall d, ~ In (Driver_do Driver_Stop d) (trace (Restart backend h w)).
Proof.
  intros G.
  assert (R : Restart backend h w
              = prepend [GetState h]
                  (Restart_start_phase backend h (after backend (GetState h) w))).
  { unfold Restart. rewrite bind_field.
    destruct (MachineInState_shape backend (Driver h) state.Running h w) as [b E].
    rewrite E in G. simpl in G. injection G as ->.
    now rewrite (bind_Val _ _ _ _ E). }
  split; [exact R|]. rewrite R. simpl.
  intros d [D|D]; [discriminate|].
  destruct (safe_Restart_start_phase h (after backend (GetState h) w)) as (_ & _ & F).
  rewrite Forall_forall in F. destruct (F _ D) as [[X|X]|X]; discriminate.
Qed.

(** X3. Restart returns an error of its Start as it is, "already running"
    included: when the machine is not observed Running and Start fails,
    Restart fails with the same error, ends where Start ended, and the
    final confirmation is not attempted. *)
Theorem Restart_propagates_every_start_error h w e :
  result (MachineInState backend (Driver h) state.Running h w) = Val false ->
  let start := Start backend h (after backend (GetState h) w) in
  result start = Val (Some e) ->
  Restart backend h w = prepend [GetState h] start
  /\ result (Restart backend h w) = Val (Some e).
Proof.
  intros G start S.
  assert (R : Restart backend h w = prepend [GetState h] start).
  { unfold Restart. rewrite bind_field.
    destruct (MachineInState_shape backend (Driver h) state.Running h w) as [b E].
    rewrite E in G. simpl in G. injection G as ->.
    rewrite (bind_Val _ _ _ _ E). cbv iota.
    unfold Restart_start_phase.
    now rewrite (bind_error_propagates _ _ _ _ S). }
  rewrite R. split; [reflexivity | exact S].
Qed.

(** X4. Restart talks only to the machine's own driver, never kills, and
    stops before it starts: in every world its calls split into a first
    part made of state queries, sleeps and the driver's Stop, and a second
    part made of state queries, sleeps and the driver's Start. *)
Theorem Restart_stops_before_it_starts h w :
  let d := Driver h in
  exists t1 t2,
    trace (Restart backend h w) = (t1 ++ t2)%list
    /\ Forall (stop_call d) t1
    /\ Forall (start_call d) t2.
Proof.
  cbv zeta. unfold Restart. rewrite bind_field.
  destruct (MachineInState_shape backend (Driver h) state.Running h w) as [b E].
  rewrite (bind_Val _ _ _ _ E). set (w1 := after backend _ w).
  assert (HG : stop_call (Driver h) (GetState h)) by (left; now left).
  destruct b; cbv iota.
  - destruct (safe_run w1 (safe_Stop h)) as (err & w2 & ts & Es & Fs).
    rewrite (bind_Val _ _ _ _ Es).
    destruct err as [e|].
    + simpl.
      exists (GetState h :: ts), []. rewrite !app_nil_r. auto.
    + rewrite bind_field.
      destruct (safe_run w2 (safe_WaitFor h (Driver h) state.Stopped))
        as (err & w3 & tb & Eb & Fb).
      rewrite (bind_Val _ _ _ _ Eb).
      assert (Fb' : Forall (stop_call (Driver h)) tb)
        by (eapply Forall_impl; [|exact Fb]; intros c Hc; now left).
      destruct err as [e|].
      * simpl.
        exists (GetState h :: ts ++ tb)%list, []. rewrite !app_nil_r.
        repeat split; auto. constructor; auto. apply Forall_app; auto.
      * destruct (safe_run w3 (safe_Restart_start_phase h))
          as (err & w4 & tp & Ep & Fp).
        rewrite Ep. simpl.
        exists (GetState h :: ts ++ tb)%list, tp.
        repeat split; auto.
        -- simpl. now rewrite app_assoc.
        -- constructor; auto. apply Forall_app; auto.
  - destruct (safe_run w1 (safe_Restart_start_phase h)) as (err & w4 & tp & Ep & Fp).
    rewrite Ep. simpl.
    exists [GetState h], tp. auto.
Qed.

(** ** Upgrade *)

(** Every path through Upgrade. *)
Lemma Upgrade_run h w :
  let d := Driver h in
  let detect := provision_DetectProvisioner d in
  let upgrading := log_Info "Upgrading docker..." in
  let restarting := log_Info "Restarting docker..." in
  let w1 := after backend (Driver_GetState d) w in
  let w2 := after backend detect w1 in
  let w3 := after backend upgrading w2 in
  let p := fst (answer backend detect w1) in
  let package := Provisioner_Package p "docker" pkgaction_Upgrade in
  let w4 := after backend package w3 in
  let w5 := after backend restarting w4 in
  let service := Provisioner_Service p "docker" serviceaction_Restart in
  Upgrade backend h w
  = match snd (answer backend (Driver_GetState d) w) with
    | Some e => mkRun (Val (Some e)) h w1 [Driver_GetState d]
    | None =>
        if state.eqb (fst (answer backend (Driver_GetState d) w)) state.Running
        then
          match snd (answer backend detect w1) with
          | Some e => mkRun (Val (Some e)) h w2 [Driver_GetState d; detect]
          | None =>
              match answer backend package w3 with
              | Some e =>
                  mkRun (Val (Some e)) h w4
                        [Driver_GetState d; detect; upgrading; package]
              | None =>
                  mkRun (Val (answer backend service w5)) h
                        (after backend service w5)
                        [Driver_GetState d; detect; upgrading; package;
                         restarting; service]
              end
          end
        else mkRun (Val (Some errMachineMustBeRunningForUpgrade)) h w1
                   [Driver_GetState d]
    end.
Proof.
  cbv zeta. unfold Upgrade.
  rewrite bind_field, (bind_call backend (GetState h)).
  destruct (answer backend (GetState h) w) as [ms [e|]];
    cbv beta iota; simpl fst; simpl snd; [reflexivity|].
  destruct (state.eqb ms state.Running); cbn [negb]; cbv iota; [|reflexivity].
  rewrite bind_field, (bind_call backend (provision_DetectProvisioner (Driver h))).
  match goal with |- context [answer backend (provision_DetectProvisioner ?d) ?x] =>
    destruct (answer backend (provision_DetectProvisioner d) x) as [p [e|]] end;
    cbv beta iota; simpl fst; simpl snd; [reflexivity|].
  rewrite (bind_call backend (log_Info "Upgrading docker...")).
  rewrite (bind_call backend (Provisioner_Package p "docker" pkgaction_Upgrade)).
  match goal with |- context [match ?x with Some _ => _ | None => _ end] =>
    destruct x as [e|] end; [reflexivity|].
  rewrite (bind_call backend (log_Info "Restarting docker...")).
  reflexivity.
Qed.

Lemma state_eqb_eq a b : state.eqb a b = true <-> a = b.
Proof.
  unfold state.eqb. destruct (state.State_eq_dec a b); split; congruence.
Qed.

(** X5. Upgrade never touches the lifecycle of the machine: whatever the
    backend answers, its calls are among the state query, the detection,
    the two log lines, Package("docker", Upgrade) and
    Service("docker", Restart); no Start, Stop or Kill, no sleep, no
    Provision. *)
Theorem Upgrade_never_acts_on_the_machine h w :
  Forall (upgrade_call (Driver h)) (trace (Upgrade backend h w))
  /\ (forall a d, ~ In (Driver_do a d) (trace (Upgrade backend h w)))
  /\ ~ In time_Sleep (trace (Upgrade backend h w))
  /\ (forall p sw au en,
        ~ In (Provisioner_Provision p sw au en) (trace (Upgrade backend h w))).
Proof.
  assert (S : safe (upgrade_call (Driver h)) h (Upgrade backend)).
  { unfold Upgrade. apply safe_field.
    apply safe_bind; [safe_call; now left|]. intros [ms err].
    apply safe_error.
    destruct (negb (state.eqb ms state.Running)); [apply safe_ret|].
    apply safe_field.
    apply safe_bind; [safe_call; right; now left|]. intros [p err'].
    apply safe_error.
    apply safe_bind; [safe_call; right; right; left; eauto|]. intros _.
    apply safe_bind; [safe_call; right; right; right; left; eauto|]. intros err''.
    apply safe_error.
    apply safe_bind; [safe_call; right; right; left; eauto|]. intros _.
    safe_call. right; right; right; right; eauto. }
  destruct (S w) as (_ & _ & Ft).
  split; [exact Ft|].
  rewrite Forall_forall in Ft.
  repeat split; intros; intros Hin; apply Ft in Hin;
    destruct Hin as [X|[X|[[? X]|[[? X]|[? X]]]]]; discriminate.
Qed.

(** X6. Upgrade returns nil exactly when every step does: the state query
    answers Running without error, the provisioner is detected, and both
    Package and Service return nil. *)
Theorem Upgrade_succeeds_exactly_when_every_step_does h w :
  let d := Driver h in
  let detect := provision_DetectProvisioner d in
  let w1 := after backend (Driver_GetState d) w in
  let w3 := after backend (log_Info "Upgrading docker...") (after backend detect w1) in
  let p := fst (answer backend detect w1) in
  let package := Provisioner_Package p "docker" pkgaction_Upgrade in
  let w5 := after backend (log_Info "Restarting docker...") (after backend package w3) in
  let service := Provisioner_Service p "docker" serviceaction_Restart in
  result (Upgrade backend h w) = Val None
  <-> answer backend (Driver_GetState d) w = (state.Running, None)
      /\ snd (answer backend detect w1) = None
      /\ answer backend package w3 = None
      /\ answer backend service w5 = None.
Proof.
  cbv zeta. rewrite Upgrade_run. cbv zeta.
  destruct (answer backend (GetState h) w) as [ms [e|]]; simpl fst; simpl snd.
  - simpl. split; [discriminate|]. intros (X & _). discriminate.
  - destruct (state.eqb ms state.Running) eqn:Eq.
    + apply state_eqb_eq in Eq. subst ms.
      destruct (snd (answer backend (provision_DetectProvisioner (Driver h)) _)) as [e|].
      * simpl. split; [discriminate|]. intros (_ & X & _). discriminate.
      * match goal with |- context [match ?x with Some _ => _ | None => _ end] =>
          destruct x as [e|] eqn:Ep end.
        -- simpl. split; [discriminate|]. intros (_ & _ & X & _). discriminate.
        -- simpl. split.
           ++ intros X. injection X as X. auto.
           ++ intros (_ & _ & _ & X). now rewrite X.
    + simpl. split; [discriminate|]. intros (X & _).
      injection X as ->. rewrite state_eqb_refl in Eq. discriminate.
Qed.

(** X7. When the machine is Running but no provisioner can be detected,
    Upgrade returns the detection error as it is, after the state query and
    the detection only: nothing is logged, upgraded or restarted. *)
Theorem Upgrade_propagates_detection_error h w p e :
  answer backend (GetState h) w = (state.Running, None) ->
  let detect := provision_DetectProvisioner (Driver h) in
  let w1 := after backend (GetState h) w in
  answer backend detect w1 = (p, Some e) ->
  Upgrade backend h w
  = mkRun (Val (Some e)) h (after backend detect w1) [GetState h; detect].
Proof.
  cbv zeta. intros E D. rewrite Upgrade_run. cbv zeta.
  rewrite E. simpl fst; simpl snd. rewrite state_eqb_refl, D. reflexivity.
Qed.

(** ** ConfigureAuth and the AuthOptions accessor *)

(** Every path through ConfigureAuth, the nil pointers included. *)
Lemma ConfigureAuth_run h w :
  let detect := provision_DetectProvisioner (Driver h) in
  let w1 := after backend detect w in
  let p := fst (answer backend detect w) in
  ConfigureAuth backend h w
  = match snd (answer backend detect w) with
    | Some e => mkRun (Val (Some e)) h w1 [detect]
    | None =>
        match HostOptions h with
        | None => mkRun Panic h w1 [detect]
        | Some o =>
            match AuthOptions o, EngineOptions o with
            | Some au, Some en =>
                let provision := Provisioner_Provision p swarm_Options_zero au en in
                mkRun (Val (answer backend provision w1)) h
                      (after backend provision w1) [detect; provision]
            | _, _ => mkRun Panic h w1 [detect]
            end
        end
    end.
Proof.
  cbv zeta. unfold ConfigureAuth.
  rewrite bind_field, (bind_call backend (provision_DetectProvisioner (Driver h))).
  destruct (answer backend (provision_DetectProvisioner (Driver h)) w) as [p [e|]];
    cbv beta iota; simpl fst; simpl snd; [reflexivity|].
  rewrite bind_field.
  destruct (HostOptions h) as [o|] eqn:Ho; [|reflexivity].
  rewrite bind_deref_Some.
  destruct (AuthOptions o) as [au|]; [|reflexivity].
  rewrite bind_deref_Some, bind_field, Ho, bind_deref_Some.
  destruct (EngineOptions o) as [en|]; [|reflexivity].
  rewrite bind_deref_Some.
  rewrite (bind_call backend (Provisioner_Provision p swarm_Options_zero au en)).
  match goal with |- context [match ?x with Some _ => _ | None => _ end] =>
    destruct x end; reflexivity.
Qed.


(** X9. ConfigureAuth is not guarded: it never asks for the state of the
    machine, never acts on it and never sleeps.  Its calls are the
    detection alone, or the detection followed by one Provision on the
    detected provisioner, with the zero swarm options, the engine options
    of the host and the very auth options that the accessor
    [h.AuthOptions()] returns. *)
Theorem ConfigureAuth_calls_detection_then_at_most_Provision h w :
  let detect := provision_DetectProvisioner (Driver h) in
  trace (ConfigureAuth backend h w) = [detect]
  \/ exists o au en,
       HostOptions h = Some o
       /\ EngineOptions o = Some en
       /\ (forall w' : W, result (Host_AuthOptions h w') = Val (Some au))
       /\ trace (ConfigureAuth backend h w)
          = [detect;
             Provisioner_Provision (fst (answer backend detect w))
                                   swarm_Options_zero au en].
Proof.
  cbv zeta. rewrite ConfigureAuth_run. cbv zeta.
  destruct (snd (answer backend (provision_DetectProvisioner (Driver h)) w)) as [e|];
    [now left|].
  destruct (HostOptions h) as [o|] eqn:Ho; [|now left].
  destruct (AuthOptions o) as [au|] eqn:Ha; [|now left].
  destruct (EngineOptions o) as [en|] eqn:He; [|now left].
  right. exists o, au, en. repeat split; auto.
  intros w'. unfold Host_AuthOptions.
  now rewrite bind_field, Ho, bind_deref_Some, Ha.
Qed.

(** ** CreateSSHClient *)

(** X10. CreateSSHClient does not write to the host, and it returns a nil
    error exactly when the hostname query, the port query and the SSH
    factory all succeed. *)
Theorem CreateSSHClient_succeeds_exactly_when_every_step_does h w :
  let d := Driver h in
  let hostname := Driver_GetSSHHostname d in
  let port := Driver_GetSSHPort d in
  let w1 := after backend hostname w in
  let w2 := after backend port w1 in
  let w3 := after backend (Driver_GetSSHKeyPath d) w2 in
  let w4 := after backend (Driver_GetSSHUsername d) w3 in
  let newClient :=
    ssh_NewClient (answer backend (Driver_GetSSHUsername d) w3)
                  (fst (answer backend hostname w))
                  (fst (answer backend port w1))
                  {| Keys := [answer backend (Driver_GetSSHKeyPath d) w2] |} in
  host_after (CreateSSHClient backend h w) = h
  /\ ((exists c, result (CreateSSHClient backend h w) = Val (c, None))
      <-> snd (answer backend hostname w) = None
          /\ snd (answer backend port w1) = None
          /\ snd (answer backend newClient w4) = None).
Proof.
  cbv zeta. unfold CreateSSHClient.
  rewrite bind_field, (bind_call backend (Driver_GetSSHHostname (Driver h))).
  destruct (answer backend (Driver_GetSSHHostname (Driver h)) w) as [addr [e|]];
    cbv beta iota; simpl fst; simpl snd.
  { simpl. split; [reflexivity|].
    split; [intros [c X]; discriminate | intros (X & _); discriminate]. }
  rewrite bind_field, (bind_call backend (Driver_GetSSHPort (Driver h))).
  match goal with |- context [answer backend (Driver_GetSSHPort ?d) ?x] =>
    destruct (answer backend (Driver_GetSSHPort d) x) as [pt [e|]] end;
    cbv beta iota; simpl fst; simpl snd.
  { simpl. split; [reflexivity|].
    split; [intros [c X]; discriminate | intros (_ & X & _); discriminate]. }
  rewrite bind_field, (bind_call backend (Driver_GetSSHKeyPath (Driver h))).
  cbv beta zeta.
  rewrite bind_field, (bind_call backend (Driver_GetSSHUsername (Driver h))).
  match goal with |- context [call backend ?c ?hh ?x] =>
    change (call backend c hh x)
      with (mkRun (Val (answer backend c x)) hh (after backend c x) [c])
  end.
  cbn [prepend result host_after].
  split; [reflexivity|]. split.
  - intros [c X]. injection X as X. repeat split. exact (f_equal snd X).
  - intros (_ & _ & X).
    match goal with |- exists _, Val ?a = _ =>
      assert (X' : snd a = None) by exact X;
      destruct a as [cl er]; simpl in X'; subst er; eauto
    end.
Qed.

End Further.

(** ** More on machine names *)

Section MoreHostNames.

Lemma list_ascii_of_string_app (a b : string) :
  list_ascii_of_string (a ++ b)
  = (list_ascii_of_string a ++ list_ascii_of_string b)%list.
Proof. induction a as [|c a IH]; simpl; [reflexivity | now rewrite IH]. Qed.

Lemma ValidateHostName_cons c rest :
  ValidateHostName (String c rest)
  = (in_class alnum_ranges c
     && forallb (in_class (alnum_ranges ++ [("-"%char, "-"%char); ("."%char, "."%char)]))
                (list_ascii_of_string rest))%bool.
Proof.
  unfold ValidateHostName, validHostNamePattern, validHostNameChars.
  now rewrite matches_class_then, matches_Star_class.
Qed.

(** X11. A valid machine name stays valid when any run of alphanumerics,
    hyphens and dots is appended: names can be joined with "." or "-", and
    a trailing hyphen or dot is accepted. *)
Theorem ValidateHostName_append (a b : string) :
  ValidateHostName a = true ->
  Forall name_char (list_ascii_of_string b) ->
  ValidateHostName (a ++ b) = true.
Proof.
  destruct a as [|c a]; [discriminate|].
  simpl append. rewrite !ValidateHostName_cons, !andb_true_iff.
  intros [Hc Ha] Hb. split; [exact Hc|].
  rewrite list_ascii_of_string_app, forallb_app, Ha. simpl.
  apply forallb_forall. rewrite Forall_forall in Hb.
  intros x Hx. apply name_class. auto.
Qed.

(** X12. Every non-empty prefix of a valid machine name is a valid machine
    name. *)
Theorem ValidateHostName_prefix (a b : string) :
  ValidateHostName (a ++ b) = true ->
  a <> "" ->
  ValidateHostName a = true.
Proof.
  destruct a as [|c a]; [congruence|].
  simpl append. rewrite !ValidateHostName_cons, !andb_true_iff.
  intros [Hc Hab] _. split; [exact Hc|].
  rewrite list_ascii_of_string_app, forallb_app, andb_true_iff in Hab. tauto.
Qed.

End MoreHostNames.

(* ------------------------------------------------------------------ *)
(** * More scenarios on the scripted machine *)

Section MoreScenarios.

Import Demo.

Local Abbreviation vbox := (Driver dev).

(** Restart on a stopped machine. *)
Lemma restarting_a_halted_machine :
  result (MachineInState backend vbox state.Running dev halted) = Val false
  /\ result (Restart backend dev halted) = Val None
  /\ forall d, ~ In (Driver_do Driver_Stop d) (trace (Restart backend dev halted)).
Proof.
  assert (Hg : result (MachineInState backend vbox state.Running dev halted)
               = Val false) by reflexivity.
  split; [exact Hg|]. split; [reflexivity|].
  exact (proj2 (Restart_skips_stop_unless_running backend dev halted Hg)).
Defined.

(** Restart on a machine in Error whose driver fails to start it. *)
Lemma restarting_a_broken_machine :
  result (MachineInState backend vbox state.Running dev broken) = Val false
  /\ result (Start backend dev (after backend (Driver_GetState vbox) broken))
     = Val (Some "VBoxManage: error: machine is locked")
  /\ result (Restart backend dev broken)
     = Val (Some "VBoxManage: error: machine is locked").
Proof.
  assert (Hg : result (MachineInState backend vbox state.Running dev broken)
               = Val false) by reflexivity.
  assert (Hs : result (Start backend dev (after backend (Driver_GetState vbox) broken))
               = Val (Some "VBoxManage: error: machine is locked"))
    by reflexivity.
  split; [exact Hg|]. split; [exact Hs|].
  exact (proj2 (Restart_propagates_every_start_error backend dev broken Hg Hs)).
Defined.

(** Upgrade on a running machine with an unknown operating system. *)
Lemma upgrading_an_unknown_os :
  answer backend (Driver_GetState vbox) unknown_os = (state.Running, None)
  /\ answer backend (provision_DetectProvisioner vbox)
            (after backend (Driver_GetState vbox) unknown_os)
     = ("boot2docker", Some "Something went wrong detecting the provisioner")
  /\ Upgrade backend dev unknown_os
     = mkRun (Val (Some "Something went wrong detecting the provisioner"))
             dev unknown_os
             [Driver_GetState vbox; provision_DetectProvisioner vbox].
Proof.
  assert (Hq : answer backend (Driver_GetState vbox) unknown_os
               = (state.Running, None)) by reflexivity.
  assert (Hd : answer backend (provision_DetectProvisioner vbox)
                      (after backend (Driver_GetState vbox) unknown_os)
               = ("boot2docker", Some "Something went wrong detecting the provisioner"))
    by reflexivity.
  split; [exact Hq|]. split; [exact Hd|].
  exact (Upgrade_propagates_detection_error backend dev unknown_os Hq Hd).
Defined.

(** A name extended by a hyphen, a digit, a dot and a domain. *)
Lemma extending_the_name_dev :
  ValidateHostName "dev" = true
  /\ Forall name_char (list_ascii_of_string "-1.local")
  /\ ValidateHostName "dev-1.local" = true.
Proof.
  assert (Ha : ValidateHostName "dev" = true) by reflexivity.
  assert (Hb : Forall name_char (list_ascii_of_string "-1.local")).
  { simpl. repeat (apply Forall_cons; [apply name_class; reflexivity|]).
    apply Forall_nil. }
  split; [exact Ha|]. split; [exact Hb|].
  exact (@ValidateHostName_append "dev" "-1.local" Ha Hb).
Defined.

(** A prefix of a valid name. *)
Lemma shortening_the_name_dev :
  ValidateHostName ("dev" ++ "-1.local") = true
  /\ "dev" <> ""
  /\ ValidateHostName "dev" = true.
Proof.
  assert (Ha : ValidateHostName ("dev" ++ "-1.local") = true) by reflexivity.
  assert (Hn : "dev" <> "") by discriminate.
  split; [exact Ha|]. split; [exact Hn|].
  exact (@ValidateHostName_prefix "dev" "-1.local" Ha Hn).
Defined.

End MoreScenarios.
